(** * Leave-balance consistency engine of the Employee Nexus backend

    A shallow embedding of the leave-management core:
    - JavaScript values and strings        -> [Module Js]
    - regular expressions                  -> [Module Regex]
    - [utils/validation.js]                -> [Module Validation]
    - the tables and the SQL statements    -> [Module Store]
    - [utils/database.js]                  -> [Module Database]
    - the answers of the routes            -> [Module Http]
    - [routes/employees.js]                -> [Module Employees],
                                              [Module EmployeeAdmin]
    - [routes/leaves.js]                   -> [Module Leaves]
    - statistics and [server.js] health    -> [Module Reports]
    - conditions on the tables             -> [Module Invariants]
    - the specification's own predicates   -> [Module Spec]
    - sample tables and requests           -> [Module Sample]
    followed by the properties proved of them.

    Conventions of the embedding.
    - JavaScript strings are sequences of ASCII characters; [toUpperCase],
      [toLowerCase] and [trim] are the ASCII restrictions of the JavaScript
      methods, and SQL [LOWER] is the ASCII lower-casing.
    - A JavaScript number is an integer ([JNum]) or NaN ([JNaN]; [None]
      where a function computes it); numbers with a fraction and the
      infinities are outside the embedding.
    - A calendar date is its day number, written in a request as the ISO
      text YYYY-MM-DD, which [new Date] reads at UTC midnight: its time
      value is the day number times [msPerDay]. The local time of the
      server is a parameter ([Validation.zone]): the function that
      [setHours(0, 0, 0, 0)] computes.
    - A nullable INTEGER column is an [option Z], [None] being SQL NULL.
    - The relational store is reliable except where a fault schedule is
      passed explicitly ([Module Database]); deterministic store errors
      (malformed statement, constraint violation) are always modelled. *)

From Stdlib Require Import ZArith List String Ascii Bool Lia.
Import ListNotations.

Local Open Scope string_scope.
Local Open Scope list_scope.
Local Open Scope Z_scope.

(** ** JavaScript values and string primitives *)

Module Js.

Inductive jsval : Type :=
| JUndefined
| JNull
| JBool (b : bool)
| JNum (z : Z)
| JNaN.

(** ToBoolean *)
Definition truthy (v : jsval) : bool :=
  match v with
  | JUndefined | JNull | JNaN => false
  | JBool b => b
  | JNum z => negb (z =? 0)
  end.

(** [a || b] *)
Definition js_or (a b : jsval) : jsval := if truthy a then a else b.

(** ToNumber; [None] is NaN. *)
Definition to_number (v : jsval) : option Z :=
  match v with
  | JUndefined | JNaN => None
  | JNull => Some 0
  | JBool b => Some (if b then 1 else 0)
  | JNum z => Some z
  end.

(** [v < n] for a number [n]: a comparison with NaN is false. *)
Definition js_lt (v : jsval) (n : Z) : bool :=
  match to_number v with
  | Some a => a <? n
  | None => false
  end.

(** [n <= v] for a number [n]. *)
Definition js_le_val (n : Z) (v : jsval) : bool :=
  match to_number v with
  | Some a => n <=? a
  | None => false
  end.

(** [v - n] for a number [n]. *)
Definition js_sub (v : jsval) (n : Z) : option Z :=
  match to_number v with
  | Some a => Some (a - n)
  | None => None
  end.

(** The first digit of the decimal text of [n], for [0 <= n]. *)
Fixpoint leading_digit (fuel : nat) (n : Z) : Z :=
  if n <? 10 then n
  else
    match fuel with
    | O => n
    | S fuel' => leading_digit fuel' (n / 10)
    end.

(** The power of ten [10^k] with [10^k <= n < 10^(k+1)], for [1 <= n]. *)
Fixpoint digit_weight (fuel : nat) (n : Z) : Z :=
  if n <? 10 then 1
  else
    match fuel with
    | O => 1
    | S fuel' => 10 * digit_weight fuel' (n / 10)
    end.

(** Is the number [n], a double, the one that a decimal of value [r],
    above [n], is read as? A double has 53 binary digits, and a decimal is
    read as the nearest double, the one with the even last digit when two
    are as near. *)
Definition reads_back_as (n r : Z) : bool :=
  let ulp := 2 ^ (Z.log2 n - 52) in
  (r <? 2 ^ (Z.log2 n + 1))
  && ((2 * (r - n) <? ulp)
      || ((2 * (r - n) =? ulp) && Z.even (n / ulp))).

(** From this magnitude on, the text of a number is in exponent form,
    [d.ddde+N]. *)
Definition exponent_limit : Z := 1000000000000000000000.

(** The digit [d] before the point in the text of a number
    [n >= 10^21]. The text is the shortest decimal that is read back as
    the number: it starts with the first digit of [n], unless the next
    number above [n] that is written with one digit (and zeros) is read
    back as [n] too, in which case that is the text. *)
Definition exponent_digit (n : Z) : Z :=
  let fuel := Z.to_nat (Z.log2 n) in
  let d := leading_digit fuel n in
  let above := (d + 1) * digit_weight fuel n in
  if reads_back_as n above then (if d =? 9 then 1 else d + 1) else d.

(** [parseInt(v)]: the argument is converted to a string and the digits
    at its start are read. An integer below 10^21 in magnitude is written
    with all its digits and parses to itself. From 10^21 on only the digit
    before the point is read, with the sign. [undefined], [null], [true],
    [false] and NaN give NaN. *)
Definition parseInt (v : jsval) : option Z :=
  match v with
  | JNum z =>
      if Z.abs z <? exponent_limit then Some z
      else Some (Z.sgn z * exponent_digit (Z.abs z))
  | _ => None
  end.

(** The number that arithmetic reads from a nullable INTEGER column:
    NULL arrives as [null], which converts to 0. *)
Definition column_number (c : option Z) : Z :=
  match c with
  | Some z => z
  | None => 0
  end.

(** A value read from a nullable INTEGER column. *)
Definition of_column (c : option Z) : jsval :=
  match c with
  | Some z => JNum z
  | None => JNull
  end.

Definition is_whitespace (c : ascii) : bool :=
  let n := nat_of_ascii c in
  ((n =? 32) || ((9 <=? n) && (n <=? 13)))%nat.

Definition upper_char (c : ascii) : ascii :=
  let n := nat_of_ascii c in
  if ((97 <=? n) && (n <=? 122))%nat then ascii_of_nat (n - 32) else c.

Definition lower_char (c : ascii) : ascii :=
  let n := nat_of_ascii c in
  if ((65 <=? n) && (n <=? 90))%nat then ascii_of_nat (n + 32) else c.

Fixpoint map_chars (f : ascii -> ascii) (s : string) : string :=
  match s with
  | EmptyString => EmptyString
  | String c r => String (f c) (map_chars f r)
  end.

Definition toUpperCase (s : string) : string := map_chars upper_char s.
Definition toLowerCase (s : string) : string := map_chars lower_char s.

Fixpoint trimStart (s : string) : string :=
  match s with
  | EmptyString => EmptyString
  | String c r => if is_whitespace c then trimStart r else s
  end.

Fixpoint trimEnd (s : string) : string :=
  match s with
  | EmptyString => EmptyString
  | String c r =>
      match trimEnd r with
      | EmptyString => if is_whitespace c then EmptyString else String c EmptyString
      | r' => String c r'
      end
  end.

Definition trim (s : string) : string := trimEnd (trimStart s).

(** [s.replace(/[<>]/g, '')] *)
Fixpoint strip_angle (s : string) : string :=
  match s with
  | EmptyString => EmptyString
  | String c r =>
      if (Ascii.eqb c "<" || Ascii.eqb c ">")%char then strip_angle r
      else String c (strip_angle r)
  end.

(** [Array.prototype.includes] on an array of strings. *)
Definition includes (l : list string) (s : string) : bool :=
  existsb (String.eqb s) l.

End Js.

(** ** Regular expressions, as far as [validateEmail] needs them *)

Module Regex.

(** Patterns over characters: no string, the empty string, one character
    of a class, concatenation, alternative and repetition. *)
Inductive regex : Type :=
| Never
| Empty
| Class (p : ascii -> bool)
| Cat (r s : regex)
| Alt (r s : regex)
| Star (r : regex).

(** [r+] *)
Definition Plus (r : regex) : regex := Cat r (Star r).

(** Does the pattern match the empty string? *)
Fixpoint nullable (r : regex) : bool :=
  match r with
  | Never => false
  | Empty => true
  | Class _ => false
  | Cat r s => nullable r && nullable s
  | Alt r s => nullable r || nullable s
  | Star _ => true
  end.

(** The pattern of what may follow a first character [c]. *)
Fixpoint derive (c : ascii) (r : regex) : regex :=
  match r with
  | Never => Never
  | Empty => Never
  | Class p => if p c then Empty else Never
  | Cat r s =>
      Alt (Cat (derive c r) s) (if nullable r then derive c s else Never)
  | Alt r s => Alt (derive c r) (derive c s)
  | Star r => Cat (derive c r) (Star r)
  end.

(** [/^r$/.test(s)] *)
Fixpoint test (r : regex) (s : string) : bool :=
  match s with
  | EmptyString => nullable r
  | String c s' => test (derive c r) s'
  end.

(** The strings a pattern stands for. *)
Inductive Matches : regex -> string -> Prop :=
| MEmpty : Matches Empty EmptyString
| MClass p c : p c = true -> Matches (Class p) (String c EmptyString)
| MCat r s a b : Matches r a -> Matches s b -> Matches (Cat r s) (a ++ b)%string
| MAltL r s a : Matches r a -> Matches (Alt r s) a
| MAltR r s a : Matches s a -> Matches (Alt r s) a
| MStar0 r : Matches (Star r) EmptyString
| MStarS r a b :
    Matches r a -> Matches (Star r) b -> Matches (Star r) (a ++ b)%string.

(** Every character of the string is in the class. *)
Fixpoint all_chars (p : ascii -> bool) (s : string) : bool :=
  match s with
  | EmptyString => true
  | String c r => p c && all_chars p r
  end.

End Regex.

(** ** utils/validation.js *)

Module Validation.
Import Js.

(** A request field is [None] when it is [undefined]. *)
Definition or_empty (t : option string) : string :=
  match t with
  | Some s => s
  | None => ""
  end.

Definition validateLeaveType (type : option string) : bool :=
  let normalizedType := trim (toUpperCase (or_empty type)) in
  includes ["CL"; "RH"; "EL"] normalizedType.

(** Returns [None] for JavaScript [null]. *)
Definition normalizeLeaveType (type : option string) : option string :=
  let normalizedType := trim (toUpperCase (or_empty type)) in
  if includes ["CL"; "RH"; "EL"] normalizedType then Some normalizedType
  else None.

Definition normalizeLeaveBalance (balance : jsval) : Z :=
  match balance with
  | JNull | JUndefined => 0
  | _ =>
      match parseInt balance with
      | None => 0
      | Some numBalance => Z.max 0 numBalance
      end
  end.

Definition msPerDay : Z := 1000 * 60 * 60 * 24.

(** A date field of a request: absent (or empty), text that [new Date]
    cannot read (time value NaN), or a calendar day written YYYY-MM-DD. *)
Inductive date_input : Type :=
| NoDate
| BadDate
| Day (d : Z).

(** Time value of [new Date(x)], in milliseconds since the epoch; [None]
    is NaN. A date written YYYY-MM-DD is read at UTC midnight. *)
Definition time_value (x : date_input) : option Z :=
  match x with
  | Day d => Some (d * msPerDay)
  | _ => None
  end.

(** The local time of the server, as far as the code reads it: for a
    date of time value [t], [d.setHours(0, 0, 0, 0)] moves it to the
    midnight that starts the local day of [t], and the zone gives the time
    value of that midnight. *)
Definition zone : Type := Z -> Z.

(** Local time that is UTC plus a fixed offset (in milliseconds). *)
Definition fixed_offset (offset : Z) : zone :=
  fun t => (t + offset) / msPerDay * msPerDay - offset.

Definition utc : zone := fixed_offset 0.

(** [now] is the time value of [new Date()], the server clock. *)
Definition validateDateRange (tz : zone) (now : Z)
  (startDate endDate : date_input) : bool :=
  let today := tz now in
  match time_value startDate, time_value endDate with
  | Some start, Some end_ => (today <=? start) && (start <=? end_)
  | _, _ => false
  end.

(** On two calendar days (the only arguments that pass
    [validateDateRange]). *)
Definition calculateLeaveDays (tz : zone) (startDate endDate : Z) : Z :=
  let start := tz (startDate * msPerDay) in
  let end_ := tz (endDate * msPerDay) in
  let days := (end_ - start) / msPerDay + 1 in
  Z.max 1 days.

(** The table [maxDays]; any other key reads [undefined]. *)
Definition maxDays (leaveType : string) : jsval :=
  if String.eqb leaveType "CL" then JNum 30
  else if String.eqb leaveType "RH" then JNum 15
  else if String.eqb leaveType "EL" then JNum 60
  else JUndefined.

(** [return days <= maxDays[leaveType] || 30;] parses as
    [(days <= maxDays[leaveType]) || 30]. NaN is of type number, and both
    [NaN < 1] and [NaN <= cap] are false. *)
Definition validateLeaveDays (days : jsval) (leaveType : string) : jsval :=
  match days with
  | JNum d =>
      if d <? 1 then JBool false
      else js_or (JBool (js_le_val d (maxDays leaveType))) (JNum 30)
  | JNaN => js_or (JBool false) (JNum 30)
  | _ => JBool false
  end.

(** Returns a truthy value iff the identifier is a string that is not
    blank. *)
Definition validateEmployeeId (employeeId : option string) : bool :=
  match employeeId with
  | None => false
  | Some s => negb (String.eqb s "") && negb (String.eqb (trim s) "")
  end.

Definition sanitizeInput (input : string) : string := strip_angle (trim input).

(** [typeof balance === 'number' && balance >= 0 && balance <= 365] *)
Definition validateLeaveBalance (balance : jsval) : bool :=
  match balance with
  | JNum z => (0 <=? z) && (z <=? 365)
  | _ => false
  end.

(** The class [[^\s@]]. *)
Definition email_char (c : ascii) : bool :=
  negb (is_whitespace c) && negb (Ascii.eqb c "@").

(** [/^[^\s@]+@[^\s@]+\.[^\s@]+$/] *)
Definition emailRegex : Regex.regex :=
  Regex.Cat (Regex.Plus (Regex.Class email_char))
    (Regex.Cat (Regex.Class (Ascii.eqb "@"))
       (Regex.Cat (Regex.Plus (Regex.Class email_char))
          (Regex.Cat (Regex.Class (Ascii.eqb "."))
             (Regex.Plus (Regex.Class email_char))))).

(** [emailRegex.test(email)]; an absent argument is tested as the text
    [undefined]. *)
Definition validateEmail (email : option string) : bool :=
  Regex.test emailRegex
    (match email with
     | Some s => s
     | None => "undefined"
     end).

End Validation.

(** ** The relational store: tables of [createTables] and the statements
    the routes send to it *)

Module Store.
Import Js.

(** Table [employees] (columns department, position, hire_date, is_admin
    and the timestamps play no part in the modelled code and are left
    out). [employee_id] is UNIQUE NOT NULL; the balances are nullable. *)
Record employee : Type := mkEmployee {
  employee_id : string;
  full_name : string;
  email : string;
  cl_balance : option Z;
  rh_balance : option Z;
  el_balance : option Z
}.

(** Table [leaves]. [leave_employee_id] is the column [employee_id], a
    foreign key to [employees(employee_id)]; [leave_type] and [status] are
    constrained by CHECK to the three type and status names. *)
Record leave : Type := mkLeave {
  id : Z;
  leave_employee_id : string;
  leave_type : string;
  start_date : Z;
  end_date : Z;
  days : Z;
  reason : string;
  status : string;
  approved_by : option string;
  approved_at : option Z;
  document_path : option string
}.

(** The database, with the SERIAL sequence of [leaves.id] and the files
    of the upload directory. *)
Record db : Type := mkDb {
  employees : list employee;
  leaves : list leave;
  leaves_id_seq : Z;
  uploads : list string
}.

Definition with_employees (d : db) (es : list employee) : db :=
  mkDb es (leaves d) (leaves_id_seq d) (uploads d).

Definition with_leaves (d : db) (ls : list leave) : db :=
  mkDb (employees d) ls (leaves_id_seq d) (uploads d).

(** SQL [LOWER] *)
Definition LOWER (s : string) : string := toLowerCase s.

(** VARCHAR(n): does the text fit the column? *)
Definition fits (n : nat) (s : string) : bool := (String.length s <=? n)%nat.

Fixpoint all_spaces (s : string) : bool :=
  match s with
  | EmptyString => true
  | String c r => Ascii.eqb c " " && all_spaces r
  end.

(** Assignment of a text to a VARCHAR(n) column: the text as it is
    stored, or [None] when the store refuses it. A text of more than n
    characters is refused, unless its characters past the n-th are all
    spaces, which are then dropped. *)
Fixpoint varchar (n : nat) (s : string) {struct s} : option string :=
  match s with
  | EmptyString => Some EmptyString
  | String c r =>
      match n with
      | O => if all_spaces s then Some EmptyString else None
      | S n' => option_map (String c) (varchar n' r)
      end
  end.

(** The same for a text that may be NULL. *)
Definition varchar_if_any (n : nat) (s : option string)
  : option (option string) :=
  match s with
  | Some t => option_map Some (varchar n t)
  | None => Some None
  end.

(** INTEGER: is the number in the range of the column? *)
Definition int4 (z : Z) : bool := (-2147483648 <=? z) && (z <=? 2147483647).

(** [c < n] and [c > n] in a WHERE clause: NULL compares to unknown, and
    a disjunction of comparisons selects the row iff one of them is
    true. *)
Definition sql_lt (c : option Z) (n : Z) : bool :=
  match c with
  | Some z => z <? n
  | None => false
  end.

Definition sql_gt (c : option Z) (n : Z) : bool :=
  match c with
  | Some z => n <? z
  | None => false
  end.

(** [SELECT ... FROM employees WHERE LOWER(employee_id) = LOWER($1)] *)
Definition select_employees_lower (d : db) (p : string) : list employee :=
  filter (fun e => String.eqb (LOWER (employee_id e)) (LOWER p)) (employees d).

(** [SELECT ... FROM employees WHERE employee_id = $1] *)
Definition select_employees_exact (d : db) (p : string) : list employee :=
  filter (fun e => String.eqb (employee_id e) p) (employees d).

(** The row with its three balances replaced. *)
Definition set_balances (cl rh el : Z) (e : employee) : employee :=
  mkEmployee (employee_id e) (full_name e) (email e) (Some cl) (Some rh) (Some el).

(** [UPDATE employees SET cl_balance = $1, rh_balance = $2,
    el_balance = $3 WHERE employee_id = $4] *)
Definition update_balances (cl rh el : Z) (p : string) (d : db) : db :=
  with_employees d
    (map (fun e =>
            if String.eqb (employee_id e) p then set_balances cl rh el e else e)
         (employees d)).

(** [SET <column> = v] on one row; [None] when [column] is not an
    integer column of [employees] (the statement is then refused). *)
Definition set_balance_column (column : string) (v : Z) (e : employee)
  : option employee :=
  if String.eqb column "cl_balance"
  then Some (mkEmployee (employee_id e) (full_name e) (email e)
                        (Some v) (rh_balance e) (el_balance e))
  else if String.eqb column "rh_balance"
  then Some (mkEmployee (employee_id e) (full_name e) (email e)
                        (cl_balance e) (Some v) (el_balance e))
  else if String.eqb column "el_balance"
  then Some (mkEmployee (employee_id e) (full_name e) (email e)
                        (cl_balance e) (rh_balance e) (Some v))
  else None.

(** The integer columns of [employees] by name. *)
Definition balance_column (column : string) (e : employee)
  : option (option Z) :=
  if String.eqb column "cl_balance" then Some (cl_balance e)
  else if String.eqb column "rh_balance" then Some (rh_balance e)
  else if String.eqb column "el_balance" then Some (el_balance e)
  else None.

(** [UPDATE employees SET <column> = $1 WHERE employee_id = $2];
    [None] when the statement is refused: the column is not an integer
    column of the table, or the value is out of the INTEGER range. *)
Definition update_balance_column (column : string) (v : Z) (p : string)
  (d : db) : option db :=
  match set_balance_column column v (mkEmployee "" "" "" None None None) with
  | None => None
  | Some _ =>
      if int4 v
      then
        Some (with_employees d
                (map (fun e =>
                        if String.eqb (employee_id e) p
                        then match set_balance_column column v e with
                             | Some e' => e'
                             | None => e
                             end
                        else e)
                     (employees d)))
      else None
  end.

(** [WHERE cl_balance < 0 OR rh_balance < 0 OR el_balance < 0] *)
Definition select_negative_balances (d : db) : list employee :=
  filter (fun e => sql_lt (cl_balance e) 0 || sql_lt (rh_balance e) 0
                   || sql_lt (el_balance e) 0)
         (employees d).

(** [WHERE cl_balance > 30 OR rh_balance > 15 OR el_balance > 30] *)
Definition select_high_balances (d : db) : list employee :=
  filter (fun e => sql_gt (cl_balance e) 30 || sql_gt (rh_balance e) 15
                   || sql_gt (el_balance e) 30)
         (employees d).

(** The date condition of the overlap query of [POST /api/leaves], with
    [$2] the requested start and [$3] the requested end. *)
Definition overlap_cases (start_date end_date p2 p3 : Z) : bool :=
  ((start_date <=? p2) && (p2 <=? end_date))
  || ((start_date <=? p3) && (p3 <=? end_date))
  || ((p2 <=? start_date) && (end_date <=? p3)).

Definition overlap_condition (l : leave) (p2 p3 : Z) : bool :=
  overlap_cases (start_date l) (end_date l) p2 p3.

(** [SELECT * FROM leaves WHERE employee_id = $1 AND status != 'REJECTED'
    AND (...)] *)
Definition select_overlapping (d : db) (p1 : string) (p2 p3 : Z) : list leave :=
  filter (fun l => String.eqb (leave_employee_id l) p1
                   && negb (String.eqb (status l) "REJECTED")
                   && overlap_condition l p2 p3)
         (leaves d).

(** [SELECT * FROM leaves WHERE id = $1], for a parameter that the store
    reads as a number of the INTEGER range, as every stored id is (any
    other text in the place of the id is refused by the store). *)
Definition select_leave (d : db) (p : Z) : list leave :=
  filter (fun l => id l =? p) (leaves d).

(** [INSERT INTO leaves (employee_id, leave_type, start_date, end_date,
    days, reason, document_path) VALUES (...) RETURNING *]. A parameter
    that its column does not take (a day count out of the INTEGER range,
    an [employee_id] that VARCHAR(50) refuses, a [document_path] that
    VARCHAR(255) refuses) is refused before the statement runs. Otherwise
    the id is drawn from the sequence (the draw is kept when the row is
    refused), [status] takes its default ['PENDING'], and the row is
    refused when [leave_type] is NULL or fails its CHECK or when no
    employee has exactly this [employee_id]. [None] is a refusal. *)
Definition insert_leave (emp : string) (type : option string) (s e n : Z)
  (why : string) (doc : option string) (d : db) : option leave * db :=
  let d1 := mkDb (employees d) (leaves d) (leaves_id_seq d + 1) (uploads d) in
  if negb (int4 n) then (None, d)
  else
    match varchar 50 emp, varchar_if_any 255 doc with
    | Some emp', Some doc' =>
        match type with
        | None => (None, d1)
        | Some t =>
            if includes ["CL"; "RH"; "EL"] t
               && existsb (fun x => String.eqb (employee_id x) emp')
                          (employees d)
            then
              let row := mkLeave (leaves_id_seq d) emp' t s e n why "PENDING"
                                 None None doc' in
              (Some row, with_leaves d1 (leaves d ++ [row]))
            else (None, d1)
        end
    | _, _ => (None, d)
    end.

(** The row with its status, approver and approval time replaced. *)
Definition set_status (st by_ : string) (now : Z) (l : leave) : leave :=
  mkLeave (id l) (leave_employee_id l) (leave_type l) (start_date l)
          (end_date l) (days l) (reason l) st (Some by_) (Some now)
          (document_path l).

(** [UPDATE leaves SET status = $1, approved_by = $2,
    approved_at = CURRENT_TIMESTAMP WHERE id = $3]; [None] when the
    statement is refused: the new status fails the CHECK on the column,
    or VARCHAR(50) refuses the approver. *)
Definition update_leave_status (st by_ : string) (now : Z) (p : Z) (d : db)
  : option db :=
  if includes ["PENDING"; "APPROVED"; "REJECTED"] st
  then
    match varchar 50 by_ with
    | Some who =>
        Some (with_leaves d
                (map (fun l => if id l =? p then set_status st who now l else l)
                     (leaves d)))
    | None => None
    end
  else None.

(** [DELETE FROM leaves WHERE id = $1] *)
Definition delete_leave (p : Z) (d : db) : db :=
  with_leaves d (filter (fun l => negb (id l =? p)) (leaves d)).

End Store.

(** ** utils/database.js *)

Module Database.
Import Js Validation Store.

Inductive error : Type :=
| EmployeeNotFound   (* new Error('Employee not found') *)
| StoreFailure.      (* an error raised by the store or the connection *)

(** A pooled client: the committed database, the view of the open
    transaction if any, and the fault schedule: the n-th statement sent
    on the client fails iff the n-th entry is [true] (none fails past the
    end of the schedule). A statement that fails has no effect. *)
Record client : Type := mkClient {
  committed : db;
  working : option db;
  faults : list bool
}.

Definition Tx (A : Type) : Type := client -> (A + error) * client.

Definition ret {A} (a : A) : Tx A := fun c => (inl a, c).

Definition throw {A} (e : error) : Tx A := fun c => (inr e, c).

Definition bind {A B} (m : Tx A) (k : A -> Tx B) : Tx B :=
  fun c =>
    match m c with
    | (inl a, c') => k a c'
    | (inr e, c') => (inr e, c')
    end.

(** [try { m } catch (err) { h err }] *)
Definition try_catch {A} (m : Tx A) (h : error -> Tx A) : Tx A :=
  fun c =>
    match m c with
    | (inl a, c') => (inl a, c')
    | (inr e, c') => h e c'
    end.

Notation "x <- m ;; k" := (bind m (fun x => k))
  (at level 61, m at next level, right associativity).
Notation "m ;;; k" := (bind m (fun _ => k))
  (at level 61, right associativity).

(** Does a schedule hold a failure? *)
Definition any_fault (fs : list bool) : bool := existsb (fun f => f) fs.

Definition next_fault (c : client) : bool * client :=
  match faults c with
  | [] => (false, c)
  | f :: fs => (f, mkClient (committed c) (working c) fs)
  end.

(** [await client.query(...)] for a statement that reads or writes rows:
    it acts on the transaction's view when one is open and on the
    committed database otherwise. *)
Definition query {A} (run : db -> A * db) : Tx A :=
  fun c =>
    let (f, c1) := next_fault c in
    if f then (inr StoreFailure, c1)
    else
      match working c1 with
      | Some w =>
          let (a, w') := run w in
          (inl a, mkClient (committed c1) (Some w') (faults c1))
      | None =>
          let (a, d') := run (committed c1) in
          (inl a, mkClient d' None (faults c1))
      end.

Definition BEGIN : Tx unit :=
  fun c =>
    let (f, c1) := next_fault c in
    if f then (inr StoreFailure, c1)
    else
      let w := match working c1 with
               | Some w => w
               | None => committed c1
               end in
      (inl tt, mkClient (committed c1) (Some w) (faults c1)).

Definition COMMIT : Tx unit :=
  fun c =>
    let (f, c1) := next_fault c in
    if f then (inr StoreFailure, c1)
    else
      let d := match working c1 with
               | Some w => w
               | None => committed c1
               end in
      (inl tt, mkClient d None (faults c1)).

Definition ROLLBACK : Tx unit :=
  fun c =>
    let (f, c1) := next_fault c in
    if f then (inr StoreFailure, c1)
    else (inl tt, mkClient (committed c1) None (faults c1)).

(** The object [normalizedBalances]. *)
Record normalized : Type := mkNormalized {
  n_cl_balance : Z;
  n_rh_balance : Z;
  n_el_balance : Z
}.

Definition normalizedBalances (employee : employee) : normalized :=
  mkNormalized
    (Z.min 30 (normalizeLeaveBalance (of_column (cl_balance employee))))
    (Z.min 15 (normalizeLeaveBalance (of_column (rh_balance employee))))
    (Z.min 18 (normalizeLeaveBalance (of_column (el_balance employee)))).

(** The row as the UPDATE of [normalizeEmployeeBalances] rewrites it. *)
Definition normalize_row (e : employee) : employee :=
  let nb := normalizedBalances e in
  set_balances (n_cl_balance nb) (n_rh_balance nb) (n_el_balance nb) e.

(** Is the row among [rows], by identifier? *)
Definition listed (rows : list employee) (e : employee) : bool :=
  existsb (fun r => String.eqb (employee_id r) (employee_id e)) rows.

(** The [try] block of [normalizeEmployeeBalances]. *)
Definition normalize_try (employeeId : string) : Tx normalized :=
  BEGIN ;;;
  rows <- query (fun d => (select_employees_exact d employeeId, d)) ;;
  match rows with
  | [] => throw EmployeeNotFound
  | employee :: _ =>
      let nb := normalizedBalances employee in
      query (fun d =>
               (tt, update_balances (n_cl_balance nb) (n_rh_balance nb)
                                    (n_el_balance nb) employeeId d)) ;;;
      COMMIT ;;;
      ret nb
  end.

(** [normalizeEmployeeBalances(employeeId)] run on the database [d] with
    the fault schedule [fs]; the first entry of [fs] is for
    [pool.connect()], which is outside the [try]. The result is the value
    returned or the error thrown, with the committed database left
    behind. *)
Definition normalizeEmployeeBalances (fs : list bool) (employeeId : string)
  (d : db) : (normalized + error) * db :=
  match fs with
  | true :: _ => (inr StoreFailure, d)
  | _ =>
      let c := mkClient d None (tl fs) in
      let (r, c') :=
        try_catch (normalize_try employeeId)
                  (fun err => ROLLBACK ;;; throw err) c in
      (r, committed c')
  end.

(** The loop [for (const employee of rows) await
    normalizeEmployeeBalances(employee.employee_id)] on a reliable
    store. *)
Fixpoint normalize_each (rows : list employee) (d : db) : (unit + error) * db :=
  match rows with
  | [] => (inl tt, d)
  | employee :: rest =>
      match normalizeEmployeeBalances [] (employee_id employee) d with
      | (inl _, d') => normalize_each rest d'
      | (inr e, d') => (inr e, d')
      end
  end.

(** [checkDataIntegrity()] on a reliable store; an error thrown inside
    is caught and logged, so only the database left behind is
    observable. *)
Definition checkDataIntegrity (d : db) : db :=
  let negativeBalances := select_negative_balances d in
  match normalize_each negativeBalances d with
  | (inr _, d1) => d1
  | (inl _, d1) =>
      let highBalances := select_high_balances d1 in
      snd (normalize_each highBalances d1)
  end.

End Database.

(** ** What a route answers *)

Module Http.
Import Js.

(** The error answers of the routes, by kind. [ValidationError m] is
    status 400 with message [m], [NotFound m] is 404, and [InternalError]
    is the 500 answer of the [catch] block of a route. *)
Inductive failure : Type :=
| ValidationError (message : string)
| NotFound (message : string)
| InsufficientBalance (leave_type : string) (available : jsval) (requested : Z)
    (* 400 `Insufficient ${leave_type} balance. Available: ..., Requested: ...` *)
| OverlapConflict
    (* 400 'Leave request overlaps with existing approved/pending leaves' *)
| InvalidTransition
    (* 400 'Leave is not in pending status' *)
| InvalidState
    (* 400 'Only pending leaves can be deleted' *)
| InternalError.

Definition http_status (f : failure) : Z :=
  match f with
  | NotFound _ => 404
  | InternalError => 500
  | _ => 400
  end.

End Http.

(** ** routes/employees.js *)

Module Employees.
Import Js Validation Store Http.

(** [GET /api/employees/:employeeId] *)
Definition getEmployee (employeeId : string) (d : db) : employee + failure :=
  if negb (validateEmployeeId (Some employeeId))
  then inr (ValidationError "Valid employee ID is required")
  else
    match select_employees_lower d (trim employeeId) with
    | [] => inr (NotFound "Employee not found")
    | employee :: _ =>
        inl (mkEmployee (employee_id employee) (full_name employee)
               (email employee)
               (Some (normalizeLeaveBalance (of_column (cl_balance employee))))
               (Some (normalizeLeaveBalance (of_column (rh_balance employee))))
               (Some (normalizeLeaveBalance (of_column (el_balance employee)))))
    end.

(** [POST /api/employees/:employeeId/fix-balances] on a reliable store *)
Definition fixBalances (employeeId : string) (d : db)
  : (Database.normalized + failure) * db :=
  if negb (validateEmployeeId (Some employeeId))
  then (inr (ValidationError "Valid employee ID is required"), d)
  else
    match select_employees_lower d (trim employeeId) with
    | [] => (inr (NotFound "Employee not found"), d)
    | _ :: _ =>
        match Database.normalizeEmployeeBalances [] (trim employeeId) d with
        | (inl normalizedBalances, d') => (inl normalizedBalances, d')
        | (inr _, d') => (inr InternalError, d')
        end
    end.

End Employees.

(** ** routes/leaves.js *)

Module Leaves.
Import Js Validation Store Http.

(** *** The statement of [PUT /:leaveId/status] that reads the leave *)

(** [s.split(sep)] *)
Fixpoint split_on (sep : ascii) (s : string) : list string :=
  match s with
  | EmptyString => [EmptyString]
  | String c r =>
      if Ascii.eqb c sep then EmptyString :: split_on sep r
      else
        match split_on sep r with
        | h :: t => String c h :: t
        | [] => [String c EmptyString]
        end
  end.

(** An entry of a select list: [t.*], [t.column] or [column]. *)
Inductive select_item : Type :=
| AllColumns (table : string)
| Column (table : option string) (name : string).

(** A qualifier must be followed by a column name or by a star; the
    store refuses the statement otherwise. *)
Definition parse_select_item (s : string) : option select_item :=
  match split_on "." (trim s) with
  | [name] =>
      if String.eqb name "" then None else Some (Column None name)
  | [table; name] =>
      if String.eqb table "" || String.eqb name "" then None
      else if String.eqb name "*" then Some (AllColumns table)
      else Some (Column (Some table) name)
  | _ => None
  end.

Fixpoint parse_select_items (l : list string) : option (list select_item) :=
  match l with
  | [] => Some []
  | s :: r =>
      match parse_select_item s, parse_select_items r with
      | Some i, Some is_ => Some (i :: is_)
      | _, _ => None
      end
  end.

(** Over [leaves l JOIN employees e]: after [l.*], each further entry
    must name an integer column of [employees], bare or qualified by
    [e]. The result is the list of those column names. *)
Fixpoint employee_columns (items : list select_item) : option (list string) :=
  match items with
  | [] => Some []
  | Column q name :: r =>
      let qualifier_ok := match q with
                          | None => true
                          | Some t => String.eqb t "e"
                          end in
      match balance_column name (mkEmployee "" "" "" None None None),
            employee_columns r with
      | Some _, Some ns => if qualifier_ok then Some (name :: ns) else None
      | _, _ => None
      end
  | AllColumns _ :: _ => None
  end.

Definition resolve_select_list (text : string) : option (list string) :=
  match parse_select_items (split_on "," text) with
  | Some (AllColumns t :: items) =>
      if String.eqb t "l" then employee_columns items else None
  | _ => None
  end.

(** A row of the join as the JavaScript object the driver builds: the
    columns of the leave and the selected columns of its employee. *)
Record joined_row : Type := mkRow {
  row_leave : leave;
  row_columns : list (string * option Z)
}.

Definition column_value (name : string) (e : employee) : option Z :=
  match balance_column name e with
  | Some v => v
  | None => None
  end.

(** [SELECT <text> FROM leaves l JOIN employees e
    ON l.employee_id = e.employee_id WHERE l.id = $1]; [None] when the
    store refuses the statement. *)
Definition select_leave_join (text : string) (p : Z) (d : db)
  : option (list joined_row) :=
  match resolve_select_list text with
  | None => None
  | Some names =>
      Some (flat_map
              (fun l =>
                 map (fun e => mkRow l (map (fun n => (n, column_value n e)) names))
                     (select_employees_exact d (leave_employee_id l)))
              (select_leave d p))
  end.

Fixpoint lookup_column (name : string) (cols : list (string * option Z))
  : option (option Z) :=
  match cols with
  | [] => None
  | (n, v) :: r => if String.eqb n name then Some v else lookup_column name r
  end.

(** [row[field]] for a field name ending in [_balance]: no column of
    [leaves] has such a name, so the field is a selected employee column
    or [undefined]. *)
Definition row_field (r : joined_row) (field : string) : jsval :=
  match lookup_column field (row_columns r) with
  | Some v => of_column v
  | None => JUndefined
  end.

(** [employee[field]] on a row of [SELECT * FROM employees], for a field
    name ending in [_balance]. *)
Definition employee_field (e : employee) (field : string) : jsval :=
  match balance_column field e with
  | Some v => of_column v
  | None => JUndefined
  end.

(** [`${leave_type.toLowerCase()}_balance`] *)
Definition balanceField (leave_type : string) : string :=
  String.append (toLowerCase leave_type) "_balance".


(** The text between SELECT and FROM built by the template literal
    [`SELECT l.*, e.${status === 'APPROVED' ?
    'cl_balance, rh_balance, el_balance' : ''} FROM leaves l ...`]: for
    any status but APPROVED it ends with the bare qualifier [e.]. *)
Definition status_select_list (status : string) : string :=
  String.append "l.*, e."
    (if String.eqb status "APPROVED"
     then "cl_balance, rh_balance, el_balance" else "").

(** *** POST /api/leaves *)

(** The fields of [req.body]; a field that is absent is [None]. *)
Record create_body : Type := mkBody {
  body_employee_id : option string;
  body_leave_type : option string;
  body_start_date : date_input;
  body_end_date : date_input;
  body_reason : option string
}.

Definition day_of (x : date_input) : option Z :=
  match x with
  | Day d => Some d
  | _ => None
  end.

Definition is_missing (x : date_input) : bool :=
  match x with
  | NoDate => true
  | _ => false
  end.

(** [!reason || reason.trim() === ''] *)
Definition reason_missing (reason : option string) : bool :=
  match reason with
  | None => true
  | Some s => String.eqb s "" || String.eqb (trim s) ""
  end.

(** [req.file.path.replace(/\\/g, '/')] *)
Definition slashes (path : string) : string :=
  map_chars (fun c => if Ascii.eqb c "\" then "/"%char else c) path.

(** [uploadLeaveDoc.single('document')], the middleware that runs before
    the handler: a document that comes with the request and that multer
    accepts is written to the upload directory, whatever the handler then
    answers. [file] is [req.file.path], the path it is written to; a path
    listed twice names one file. (A document that multer refuses is not
    written, and the handler does not run.) *)
Definition uploadLeaveDoc (file : option string) (d : db) : db :=
  match file with
  | Some path =>
      mkDb (employees d) (leaves d) (leaves_id_seq d) (path :: uploads d)
  | None => d
  end.

(** The handler of [POST /api/leaves]: [tz] is the local time of the
    server, [now] the time value of its clock, [file] is [req.file.path]
    when a document was uploaded. *)
Definition createLeave_handler (tz : zone) (now : Z) (body : create_body)
  (file : option string) (d : db) : (leave + failure) * db :=
  let employee_id := or_empty (body_employee_id body) in
  let leave_type := or_empty (body_leave_type body) in
  if negb (validateEmployeeId (body_employee_id body))
  then (inr (ValidationError "Valid employee ID is required"), d)
  else if negb (validateLeaveType (body_leave_type body))
  then (inr (ValidationError "Valid leave type is required (CL, RH, EL)"), d)
  else if is_missing (body_start_date body) || is_missing (body_end_date body)
  then (inr (ValidationError "Start date and end date are required"), d)
  else if negb (validateDateRange tz now (body_start_date body)
                                    (body_end_date body))
  then (inr (ValidationError "Invalid date range"), d)
  else if reason_missing (body_reason body)
  then (inr (ValidationError "Reason is required"), d)
  else
    match select_employees_lower d (trim employee_id),
          day_of (body_start_date body), day_of (body_end_date body) with
    | [], _, _ => (inr (NotFound "Employee not found"), d)
    | employee :: _, Some start_date, Some end_date =>
        let days := calculateLeaveDays tz start_date end_date in
        if negb (truthy (validateLeaveDays (JNum days) leave_type))
        then (inr (ValidationError "Leave days exceed maximum limit"), d)
        else
          let balanceField := balanceField leave_type in
          if js_lt (employee_field employee balanceField) days
          then (inr (InsufficientBalance leave_type
                       (employee_field employee balanceField) days), d)
          else
            match select_overlapping d (trim employee_id) start_date end_date with
            | _ :: _ => (inr OverlapConflict, d)
            | [] =>
                let documentPath := option_map slashes file in
                match insert_leave (trim employee_id)
                        (normalizeLeaveType (body_leave_type body))
                        start_date end_date days
                        (sanitizeInput (trim (or_empty (body_reason body))))
                        documentPath d with
                | (Some row, d') => (inl row, d')
                | (None, d') => (inr InternalError, d')
                end
            end
    | _ :: _, _, _ =>
        (* not reached: both dates passed validateDateRange *)
        (inr (ValidationError "Invalid date range"), d)
    end.

(** The route [POST /api/leaves]: the middleware, then the handler. *)
Definition createLeave (tz : zone) (now : Z) (body : create_body)
  (file : option string) (d : db) : (leave + failure) * db :=
  createLeave_handler tz now body file (uploadLeaveDoc file d).

(** *** PUT /api/leaves/:leaveId/status *)

(** [!approved_by] *)
Definition approver_missing (approved_by : option string) : bool :=
  match approved_by with
  | None => true
  | Some s => String.eqb s ""
  end.

(** The handler of [PUT /:leaveId/status]; [now] is CURRENT_TIMESTAMP
    and [leaveId] the number written in the path. The answer on success is
    [status.toLowerCase()], the word of the message
    [`Leave ${status.toLowerCase()} successfully`]. The two UPDATE
    statements are sent one after the other, outside a transaction: when
    the second is refused, the first stays. *)
Definition updateLeaveStatus (now : Z) (leaveId : Z) (status : option string)
  (approved_by : option string) (d : db) : (string + failure) * db :=
  let status_ := or_empty status in
  if negb (match status with
           | Some s => includes ["APPROVED"; "REJECTED"] s
           | None => false
           end)
  then (inr (ValidationError "Status must be APPROVED or REJECTED"), d)
  else if approver_missing approved_by
  then (inr (ValidationError "Approver ID is required"), d)
  else
    match select_leave_join (status_select_list status_) leaveId d with
    | None => (inr InternalError, d)
    | Some [] => (inr (NotFound "Leave not found"), d)
    | Some (leave :: _) =>
        let l := row_leave leave in
        if negb (String.eqb (Store.status l) "PENDING")
        then (inr InvalidTransition, d)
        else
          match update_leave_status status_ (or_empty approved_by) now leaveId d with
          | None => (inr InternalError, d)
          | Some d1 =>
              if String.eqb status_ "APPROVED"
              then
                let balanceField := balanceField (Store.leave_type l) in
                match js_sub (row_field leave balanceField) (Store.days l) with
                | None => (inr InternalError, d1)
                | Some newBalance =>
                    match update_balance_column balanceField newBalance
                            (leave_employee_id l) d1 with
                    | Some d2 => (inl (toLowerCase status_), d2)
                    | None => (inr InternalError, d1)
                    end
                end
              else (inl (toLowerCase status_), d1)
          end
    end.

(** *** DELETE /api/leaves/:leaveId *)

(** [fs.unlinkSync(path)] *)
Definition unlink (path : string) (d : db) : db :=
  mkDb (employees d) (leaves d) (leaves_id_seq d)
       (filter (fun f => negb (String.eqb f path)) (uploads d)).

Definition deleteLeave (leaveId : Z) (d : db) : (unit + failure) * db :=
  match select_leave d leaveId with
  | [] => (inr (NotFound "Leave not found"), d)
  | leave :: _ =>
      if negb (String.eqb (Store.status leave) "PENDING")
      then (inr InvalidState, d)
      else
        let d1 :=
          match document_path leave with
          | Some path =>
              if negb (String.eqb path "") && existsb (String.eqb path) (uploads d)
              then unlink path d else d
          | None => d
          end in
        (inl tt, delete_leave leaveId d1)
  end.

(** *** Sequences of requests *)

Inductive request : Type :=
| Create (now : Z) (body : create_body) (file : option string)
| SetStatus (now leaveId : Z) (status approved_by : option string)
| Delete (leaveId : Z).

(** The database a request leaves behind on a server of local time
    [tz]. *)
Definition serve (tz : zone) (r : request) (d : db) : db :=
  match r with
  | Create now body file => snd (createLeave tz now body file d)
  | SetStatus now leaveId status approved_by =>
      snd (updateLeaveStatus now leaveId status approved_by d)
  | Delete leaveId => snd (deleteLeave leaveId d)
  end.

Definition serve_all (tz : zone) (rs : list request) (d : db) : db :=
  fold_left (fun d r => serve tz r d) rs d.

(** [leaves.id] is a key drawn from the sequence. *)
Definition leaves_keyed (d : db) : Prop :=
  NoDup (map id (leaves d))
  /\ Forall (fun l => id l < leaves_id_seq d) (leaves d).

End Leaves.

(** ** routes/employees.js, the routes that write *)

Module EmployeeAdmin.
Import Js Validation Store.

(** The answers of these routes that are not a success: 400 with its
    message, 404, 409 and the 500 of the [catch] block. *)
Inductive refusal : Type :=
| Invalid (message : string)
| Unknown
| Duplicate
| Failed.








(** [req.body] of [PUT /api/employees/:employeeId]; a field that is
    absent is [None] or [JUndefined]. *)
Record employee_patch : Type := mkPatch {
  set_full_name : option string;
  set_email : option string;
  set_department : option string;
  set_position : option string;
  set_cl_balance : jsval;
  set_rh_balance : jsval;
  set_el_balance : jsval;
  set_is_admin : option bool
}.

Definition is_undefined (v : jsval) : bool :=
  match v with
  | JUndefined => true
  | _ => false
  end.

(** [updateFields.length === 0] *)
Definition no_fields (p : employee_patch) : bool :=
  match set_full_name p, set_email p, set_department p, set_position p,
        set_is_admin p with
  | None, None, None, None, None =>
      is_undefined (set_cl_balance p) && is_undefined (set_rh_balance p)
      && is_undefined (set_el_balance p)
  | _, _, _, _, _ => false
  end.

(** The value a SET clause writes to a balance column, if the patch has
    one. *)
Definition patched_balance (v : jsval) (old : option Z) : option Z :=
  if is_undefined v then old else Some (normalizeLeaveBalance v).

(** The row after the SET clauses built from the patch. *)
Definition patch_row (p : employee_patch) (e : employee) : employee :=
  mkEmployee (employee_id e)
    (match set_full_name p with
     | Some n => sanitizeInput (trim n)
     | None => full_name e
     end)
    (match set_email p with
     | Some m => toLowerCase (trim m)
     | None => email e
     end)
    (patched_balance (set_cl_balance p) (cl_balance e))
    (patched_balance (set_rh_balance p) (rh_balance e))
    (patched_balance (set_el_balance p) (el_balance e)).

(** Is the text, if the patch has one, short enough for VARCHAR(n)? *)
Definition text_ok (n : nat) (written : option string) : bool :=
  match written with
  | Some s => fits n s
  | None => true
  end.

(** Is the balance, if the patch has one, in the INTEGER range? *)
Definition balance_ok (v : jsval) : bool :=
  is_undefined v || int4 (normalizeLeaveBalance v).

(** [UPDATE employees SET ... WHERE LOWER(employee_id) = LOWER($n)
    RETURNING *]: the rows returned and the new table, or [None] when a
    new text is too long, a new balance is out of the INTEGER range, or
    an email is written to two rows or to one row while another row has
    it already. *)
Definition update_employees (p : employee_patch) (param : string) (d : db)
  : option (list employee * db) :=
  let hit := fun e => String.eqb (LOWER (employee_id e)) (LOWER param) in
  let rows := map (patch_row p) (filter hit (employees d)) in
  let table := map (fun e => if hit e then patch_row p e else e) (employees d) in
  if text_ok 100 (option_map (fun s => sanitizeInput (trim s)) (set_full_name p))
     && text_ok 100 (option_map (fun s => toLowerCase (trim s)) (set_email p))
     && text_ok 50 (option_map (fun s => sanitizeInput (trim s)) (set_department p))
     && text_ok 50 (option_map (fun s => sanitizeInput (trim s)) (set_position p))
     && balance_ok (set_cl_balance p) && balance_ok (set_rh_balance p)
     && balance_ok (set_el_balance p)
     && (match set_email p with
         | Some m =>
             (List.length rows <=? 1)%nat
             && negb (existsb (fun e => negb (hit e)
                                        && String.eqb (email e)
                                             (toLowerCase (trim m)))
                              (employees d))
         | None => true
         end)
  then Some (rows, with_employees d table)
  else None.

(** [PUT /api/employees/:employeeId]; the answer on success is
    [result.rows[0]], which is [undefined] ([None]) when the statement
    returned no row. *)
Definition updateEmployee (employeeId : string) (p : employee_patch) (d : db)
  : (option employee + refusal) * db :=
  if negb (validateEmployeeId (Some employeeId))
  then (inr (Invalid "Valid employee ID is required"), d)
  else
    match select_employees_lower d (trim employeeId) with
    | [] => (inr Unknown, d)
    | _ :: _ =>
        if match set_email p with
           | Some m => negb (validateEmail (Some m))
           | None => false
           end
        then (inr (Invalid "Valid email is required"), d)
        else if no_fields p
        then (inr (Invalid "No fields to update"), d)
        else
          match update_employees p (trim employeeId) d with
          | Some (rows, d') => (inl (hd_error rows), d')
          | None => (inr Failed, d)
          end
    end.

(** [DELETE FROM employees WHERE LOWER(employee_id) = LOWER($1)
    RETURNING *], with the ON DELETE CASCADE of [leaves.employee_id]: the
    rows deleted and the new tables. *)
Definition delete_employees (param : string) (d : db) : list employee * db :=
  let hit := fun e => String.eqb (LOWER (employee_id e)) (LOWER param) in
  let gone := filter hit (employees d) in
  (gone,
   mkDb (filter (fun e => negb (hit e)) (employees d))
        (filter (fun l => negb (existsb (fun e => String.eqb (employee_id e)
                                                    (leave_employee_id l))
                                         gone))
                (leaves d))
        (leaves_id_seq d) (uploads d)).

(** [DELETE /api/employees/:employeeId] *)
Definition deleteEmployee (employeeId : string) (d : db)
  : (unit + refusal) * db :=
  if negb (validateEmployeeId (Some employeeId))
  then (inr (Invalid "Valid employee ID is required"), d)
  else
    match delete_employees (trim employeeId) d with
    | ([], d') => (inr Unknown, d')
    | (_ :: _, d') => (inl tt, d')
    end.

(** An entry of [results] or of [errors] of the bulk fix. *)
Record fixed_row : Type := mkFixed {
  fixed_employee_id : string;
  fixed_full_name : string;
  fixed_balances : Database.normalized
}.

(** The loop of [POST /api/employees/fix-all-balances] on a reliable
    store: the results, the identifiers that failed, and the database. *)
Fixpoint fix_each (rows : list employee) (d : db)
  : list fixed_row * list string * db :=
  match rows with
  | [] => ([], [], d)
  | employee :: rest =>
      match Database.normalizeEmployeeBalances [] (employee_id employee) d with
      | (inl normalizedBalances, d1) =>
          let '(results, errors, d2) := fix_each rest d1 in
          (mkFixed (employee_id employee) (full_name employee)
                   normalizedBalances :: results,
           errors, d2)
      | (inr _, d1) =>
          let '(results, errors, d2) := fix_each rest d1 in
          (results, employee_id employee :: errors, d2)
      end
  end.

(** [POST /api/employees/fix-all-balances] *)
Definition fixAllBalances (d : db) : list fixed_row * list string * db :=
  fix_each (employees d) d.

End EmployeeAdmin.

(** ** Reports: leave statistics and system health *)

Module Reports.
Import Js Validation Store.

(** [COUNT(CASE WHEN c THEN 1 END)] *)
Definition count_where {A} (c : A -> bool) (l : list A) : Z :=
  Z.of_nat (List.length (filter c l)).

(** The row of [GET /api/leaves/stats/overview]. *)
Record leave_stats : Type := mkStats {
  total_leaves : Z;
  pending_leaves : Z;
  approved_leaves : Z;
  rejected_leaves : Z;
  cl_leaves : Z;
  rh_leaves : Z;
  el_leaves : Z
}.

Definition statsOverview (d : db) : leave_stats :=
  mkStats
    (Z.of_nat (List.length (leaves d)))
    (count_where (fun l => String.eqb (status l) "PENDING") (leaves d))
    (count_where (fun l => String.eqb (status l) "APPROVED") (leaves d))
    (count_where (fun l => String.eqb (status l) "REJECTED") (leaves d))
    (count_where (fun l => String.eqb (leave_type l) "CL") (leaves d))
    (count_where (fun l => String.eqb (leave_type l) "RH") (leaves d))
    (count_where (fun l => String.eqb (leave_type l) "EL") (leaves d)).

(** [dataIntegrity] of [GET /api/system/health]. *)
Record data_integrity : Type := mkIntegrity {
  totalEmployees : Z;
  totalLeaves : Z;
  negativeBalances : Z;
  highBalances : Z;
  needsAttention : bool
}.

Definition systemHealth (d : db) : data_integrity :=
  let negativeBalances := Z.of_nat (List.length (select_negative_balances d)) in
  let highBalances := Z.of_nat (List.length (select_high_balances d)) in
  mkIntegrity
    (Z.of_nat (List.length (employees d)))
    (Z.of_nat (List.length (leaves d)))
    negativeBalances highBalances
    ((0 <? negativeBalances) || (0 <? highBalances)).

End Reports.

(** ** Conditions on the tables that the routes are meant to keep *)

Module Invariants.
Import Store.

(** The foreign key of [leaves.employee_id]: every leave is stored under
    the identifier of an employee of the table. *)
Definition references_ok (d : db) : Prop :=
  forall l, In l (leaves d) ->
    exists e, In e (employees d) /\ employee_id e = leave_employee_id l.



(** The columns of a leave that no route rewrites. *)
Definition leave_request (l : leave)
  : Z * string * string * Z * Z * Z * string * option string :=
  (id l, leave_employee_id l, leave_type l, start_date l, end_date l, days l,
   reason l, document_path l).

End Invariants.

(** ** The overlap test as the specification words it *)

Module Spec.

(** Two ranges [[s1,e1]] and [[s2,e2]] overlap iff [s1 <= e2] and
    [s2 <= e1]. *)
Definition inclusive_overlap (s1 e1 s2 e2 : Z) : bool :=
  (s1 <=? e2) && (s2 <=? e1).

(** typeCap = {CL:30, RH:15, EL:18}; no cap is given for other names. *)
Definition typeCap (leaveType : string) : Z :=
  if String.eqb leaveType "CL" then 30
  else if String.eqb leaveType "RH" then 15
  else if String.eqb leaveType "EL" then 18
  else 0.

End Spec.

(** ** Sample data *)

Module Sample.
Import Validation Store Leaves.

(** A reading of the server clock: noon UTC of a day. *)
Definition noon (day : Z) : Z := day * msPerDay + 12 * 60 * 60 * 1000.

(** The time value at which the clocks of New York went forward in 2024:
    10 March (day 19792), 07:00 UTC. *)
Definition spring_forward : Z := 19792 * msPerDay + 7 * 60 * 60 * 1000.

(** Local time of New York around that change: five hours behind UTC
    before it, four hours behind after it. *)
Definition new_york : zone :=
  fun t =>
    let hour := 60 * 60 * 1000 in
    let behind := if t <? spring_forward then 5 * hour else 4 * hour in
    let midnight := (t - behind) / msPerDay * msPerDay in
    if midnight + 5 * hour <? spring_forward then midnight + 5 * hour
    else midnight + 4 * hour.

Definition ann : employee :=
  mkEmployee "EMP1" "Ann Rao" "ann@example.org" (Some 10) (Some 15) (Some 25).

Definition bob : employee :=
  mkEmployee "EMP2" "Bob Iyer" "bob@example.org" (Some 0) (Some 15) (Some 18).

Definition cara : employee :=
  mkEmployee "EMP3" "Cara Sen" "cara@example.org" (Some (-5)) None (Some 50).

Definition dev : employee :=
  mkEmployee "EMP4" "Dev Nair" "dev@example.org" (Some 30) (Some 2) (Some 50).

(** A pending casual leave of three days, days 100 to 102. *)
Definition trip : leave :=
  mkLeave 1 "EMP1" "CL" 100 102 3 "family trip" "PENDING" None None None.

(** An approved leave with an uploaded document. *)
Definition cure : leave :=
  mkLeave 2 "EMP2" "EL" 110 114 5 "treatment" "APPROVED" (Some "ADMIN1")
          (Some 90) (Some "uploads/leave_docs/note.pdf").

Definition office : db :=
  mkDb [ann; bob] [trip; cure] 3 ["uploads/leave_docs/note.pdf"].

Definition payroll : db := mkDb [cara; dev] [] 1 [].

Definition staff_of_one : db := mkDb [ann] [] 1 [].

(** A request for day 60 only, type written with a trailing
    blank, by an employee whose casual balance is 0. *)
Definition padded_request : create_body :=
  mkBody (Some "EMP2") (Some "cl ") (Day 60) (Day 60) (Some "errand").

(** A request for days 102 to 104, which meets [trip] on day 102. *)
Definition clashing_request : create_body :=
  mkBody (Some "EMP1") (Some "CL") (Day 102) (Day 104) (Some "wedding").

(** The same request with the identifier in lower case. *)
Definition lowercase_request : create_body :=
  mkBody (Some "emp1") (Some "CL") (Day 102) (Day 104) (Some "wedding").

(** A request for days 70 and 71, type in lower case between blanks. *)
Definition blank_padded_request : create_body :=
  mkBody (Some "EMP1") (Some " rh ") (Day 70) (Day 71) (Some " <b>rest</b> ").




(** A patch that writes the casual balance only. *)
Definition casual_patch : EmployeeAdmin.employee_patch :=
  EmployeeAdmin.mkPatch None None None None (Js.JNum (-3)) Js.JUndefined
    Js.JUndefined None.

(** A pending casual leave of two days for [bob], whose casual balance
    is 0. *)
Definition dash : leave :=
  mkLeave 3 "EMP2" "CL" 130 131 2 "errand" "PENDING" None None None.

Definition strained : db :=
  mkDb [ann; bob] [trip; cure; dash] 4 ["uploads/leave_docs/note.pdf"].

(** The requests of a day: a leave for [bob], an approval of [trip], and
    two attempts on the approved [cure]. *)
Definition busy_day : list Leaves.request :=
  [Leaves.Create (noon 50)
     (mkBody (Some "EMP2") (Some "rh") (Day 120) (Day 121) (Some "festival"))
     None;
   Leaves.SetStatus 51 1 (Some "APPROVED") (Some "ADMIN1");
   Leaves.SetStatus 52 2 (Some "REJECTED") (Some "ADMIN1");
   Leaves.Delete 2].

End Sample.

(** * Properties *)

Import Js Validation Store Http.

(** ** Validation *)

Lemma normalizeLeaveBalance_nonneg (v : jsval) : 0 <= normalizeLeaveBalance v.
Proof.
  destruct v; unfold normalizeLeaveBalance; cbv beta iota;
    try destruct (parseInt _); lia.
Qed.

(** A number that is not negative and is written without an exponent is
    returned as it is. *)
Lemma normalizeLeaveBalance_fixed (z : Z) :
  0 <= z < exponent_limit -> normalizeLeaveBalance (JNum z) = z.
Proof.
  intros Hz. unfold normalizeLeaveBalance, parseInt.
  replace (Z.abs z <? exponent_limit) with true
    by (symmetry; apply Z.ltb_lt; lia).
  lia.
Qed.

(** With enough fuel the first digit of a positive number is found. *)
Lemma leading_digit_range (fuel : nat) (n : Z) :
  1 <= n < 2 ^ (Z.of_nat fuel + 1) -> 1 <= leading_digit fuel n <= 9.
Proof.
  revert n. induction fuel as [|fuel IH]; intros n Hn; cbn [leading_digit].
  - change (2 ^ (Z.of_nat 0 + 1)) with 2 in Hn.
    destruct (n <? 10) eqn:E; [apply Z.ltb_lt in E|apply Z.ltb_ge in E]; lia.
  - destruct (n <? 10) eqn:E; [apply Z.ltb_lt in E; lia|].
    apply Z.ltb_ge in E. apply IH.
    replace (Z.of_nat (S fuel) + 1) with (Z.succ (Z.of_nat fuel + 1)) in Hn by lia.
    rewrite Z.pow_succ_r in Hn by lia.
    pose proof (Z.div_le_lower_bound n 10 1 ltac:(lia) ltac:(lia)).
    pose proof (Z.div_lt_upper_bound n 10 (2 ^ (Z.of_nat fuel + 1))
                  ltac:(lia) ltac:(lia)).
    lia.
Qed.

Lemma exponent_digit_range (n : Z) : 0 < n -> 1 <= exponent_digit n <= 9.
Proof.
  intros Hpos. unfold exponent_digit. cbv zeta.
  pose proof (leading_digit_range (Z.to_nat (Z.log2 n)) n) as H.
  rewrite Z2Nat.id in H by apply Z.log2_nonneg.
  destruct (Z.log2_spec n Hpos) as [_ Hup]. unfold Z.succ in Hup.
  destruct (reads_back_as n _); [|lia].
  destruct (leading_digit (Z.to_nat (Z.log2 n)) n =? 9) eqn:E;
    [lia|apply Z.eqb_neq in E; lia].
Qed.

(** From 10^21 on, what is read from the text of the number is one digit
    that is not 0. *)
Lemma normalizeLeaveBalance_exponent_form (z : Z) :
  exponent_limit <= z -> 1 <= normalizeLeaveBalance (JNum z) <= 9.
Proof.
  intros Hz. unfold normalizeLeaveBalance, parseInt.
  assert (Hpos : 0 < z) by (unfold exponent_limit in Hz; lia).
  replace (Z.abs z <? exponent_limit) with false
    by (symmetry; apply Z.ltb_ge; lia).
  rewrite Z.abs_eq, Z.sgn_pos by lia.
  pose proof (exponent_digit_range z Hpos). lia.
Qed.

Lemma fixed_offset_midnight (offset day : Z) :
  fixed_offset offset (day * msPerDay)
  = (day + offset / msPerDay) * msPerDay - offset.
Proof.
  unfold fixed_offset.
  rewrite Z.div_add_l by (unfold msPerDay; lia). reflexivity.
Qed.

(** Where local time is UTC plus a fixed offset, both end days of a range
    in order are counted. *)
Lemma calculateLeaveDays_fixed_offset (offset s e : Z) :
  calculateLeaveDays (fixed_offset offset) s e
  = if s <=? e then e - s + 1 else 1.
Proof.
  unfold calculateLeaveDays. rewrite !fixed_offset_midnight.
  replace ((e + offset / msPerDay) * msPerDay - offset
           - ((s + offset / msPerDay) * msPerDay - offset))
    with ((e - s) * msPerDay) by ring.
  rewrite Z.div_mul by (unfold msPerDay; lia).
  destruct (s <=? e) eqn:E; [apply Z.leb_le in E|apply Z.leb_gt in E]; lia.
Qed.

Lemma calculateLeaveDays_ge_1 (tz : zone) (s e : Z) :
  1 <= calculateLeaveDays tz s e.
Proof. unfold calculateLeaveDays. lia. Qed.

(** The examples of the specification, 2024-01-15 being day 19737, on a
    server whose local time is UTC. *)
Example calculateLeaveDays_three_days : calculateLeaveDays utc 19737 19739 = 3.
Proof. reflexivity. Qed.

Example calculateLeaveDays_same_day : calculateLeaveDays utc 19737 19737 = 1.
Proof. reflexivity. Qed.

(** In New York the range 2024-03-09 to 2024-03-12, four calendar days
    that span the change to summer time, is counted as three days. *)
Example calculateLeaveDays_spring_forward :
  calculateLeaveDays Sample.new_york 19791 19794 = 3
  /\ calculateLeaveDays utc 19791 19794 = 4.
Proof. split; reflexivity. Qed.

(** A leave that starts today: accepted where local time is UTC, refused
    in New York, where local midnight of today comes after the UTC
    midnight at which the start date is read. *)
Example validateDateRange_start_today :
  validateDateRange utc (Sample.noon 19780) (Day 19780) (Day 19781) = true
  /\ validateDateRange Sample.new_york (Sample.noon 19780)
       (Day 19780) (Day 19781) = false
  /\ validateDateRange Sample.new_york (Sample.noon 19780)
       (Day 19781) (Day 19781) = true.
Proof. repeat split; reflexivity. Qed.

Example validateLeaveType_padded :
  validateLeaveType (Some "cl ") = true /\ validateLeaveType (Some "SICK") = false.
Proof. split; reflexivity. Qed.

(** Whatever the type, a day count of at least one is accepted: past the
    cap the function returns the number 30, which is truthy. *)
Lemma validateLeaveDays_truthy (d : Z) (t : string) :
  1 <= d -> truthy (validateLeaveDays (JNum d) t) = true.
Proof.
  intros Hd. unfold validateLeaveDays.
  destruct (d <? 1) eqn:E; [apply Z.ltb_lt in E; lia|].
  unfold js_or. destruct (js_le_val d (maxDays t)); reflexivity.
Qed.

Lemma validateLeaveDays_below_one (d : Z) (t : string) :
  d < 1 -> validateLeaveDays (JNum d) t = JBool false.
Proof.
  intros Hd. unfold validateLeaveDays.
  apply Z.ltb_lt in Hd. now rewrite Hd.
Qed.

Lemma validateLeaveDays_within_cap (d cap : Z) (t : string) :
  1 <= d -> maxDays t = JNum cap -> d <= cap ->
  validateLeaveDays (JNum d) t = JBool true.
Proof.
  intros H1 Hcap Hle. unfold validateLeaveDays.
  destruct (d <? 1) eqn:E; [apply Z.ltb_lt in E; lia|].
  rewrite Hcap. unfold js_le_val; simpl.
  apply Z.leb_le in Hle. now rewrite Hle.
Qed.

(** C5, the code at days = 31 and type CL: [validateLeaveDays] does not
    return false for a day count above the cap of 30; it returns the
    number 30, which every caller reads as true. *)
Theorem validateLeaveDays_above_cap_accepted :
  validateLeaveDays (JNum 31) "CL" = JNum 30
  /\ truthy (validateLeaveDays (JNum 31) "CL") = true
  /\ validateLeaveDays (JNum 31) "CL" <> JBool false.
Proof. repeat split; try reflexivity. discriminate. Qed.

(** The three cases of the overlap query select exactly the ranges that
    share a day with the requested one. *)
Lemma overlap_cases_inclusive (s1 e1 s2 e2 : Z) :
  s1 <= e1 -> s2 <= e2 ->
  overlap_cases s1 e1 s2 e2 = Spec.inclusive_overlap s1 e1 s2 e2.
Proof.
  intros H1 H2. unfold overlap_cases, Spec.inclusive_overlap.
  destruct (s1 <=? s2) eqn:A, (s2 <=? e1) eqn:B, (s1 <=? e2) eqn:C,
           (e2 <=? e1) eqn:D, (s2 <=? s1) eqn:E, (e1 <=? e2) eqn:F;
    try reflexivity;
    repeat match goal with
           | H : (_ <=? _) = true |- _ => apply Z.leb_le in H
           | H : (_ <=? _) = false |- _ => apply Z.leb_gt in H
           end; lia.
Qed.

(** ** Tables as lists: reading back a row by its key *)

Section Keys.
Context {A K : Type} (key : A -> K) (eqb : K -> K -> bool).
Hypothesis eqb_eq : forall x y, eqb x y = true <-> x = y.

Lemma filter_key_absent (k : K) (l : list A) :
  ~ In k (map key l) -> filter (fun x => eqb (key x) k) l = [].
Proof.
  induction l as [|a l IH]; simpl; intros Hn; [reflexivity|].
  destruct (eqb (key a) k) eqn:E.
  - apply eqb_eq in E. tauto.
  - apply IH. tauto.
Qed.

Lemma filter_key_unique (a : A) (l : list A) :
  NoDup (map key l) -> In a l ->
  filter (fun x => eqb (key x) (key a)) l = [a].
Proof.
  induction l as [|b l IH]; simpl; intros Hnd Hin; [contradiction|].
  inversion Hnd as [|? ? Hnotin Hnd']; subst.
  destruct Hin as [-> | Hin].
  - replace (eqb (key a) (key a)) with true
      by (symmetry; now apply eqb_eq).
    f_equal. now apply filter_key_absent.
  - destruct (eqb (key b) (key a)) eqn:E.
    + apply eqb_eq in E. exfalso. apply Hnotin. rewrite E. now apply in_map.
    + now apply IH.
Qed.


Lemma map_key_preserved (f : A -> A) (l : list A) :
  (forall x, key (f x) = key x) -> map key (map f l) = map key l.
Proof.
  intros Hf. rewrite map_map. apply map_ext. exact Hf.
Qed.

End Keys.

Lemma key_injective {A K : Type} (key : A -> K) (l : list A) (a b : A) :
  NoDup (map key l) -> In a l -> In b l -> key a = key b -> a = b.
Proof.
  induction l as [|x l IH]; simpl; intros Hnd Ha Hb Hk; [contradiction|].
  inversion Hnd as [|? ? Hnotin Hnd']; subst.
  destruct Ha as [-> | Ha], Hb as [-> | Hb]; auto.
  - exfalso. apply Hnotin. rewrite Hk. now apply in_map.
  - exfalso. apply Hnotin. rewrite <- Hk. now apply in_map.
Qed.

Lemma select_employees_exact_unique (d : db) (e : employee) :
  NoDup (map employee_id (employees d)) -> In e (employees d) ->
  select_employees_exact d (employee_id e) = [e].
Proof.
  intros Hnd Hin. unfold select_employees_exact.
  now apply (filter_key_unique employee_id String.eqb String.eqb_eq).
Qed.

Lemma select_leave_unique (d : db) (l : leave) :
  NoDup (map id (leaves d)) -> In l (leaves d) ->
  select_leave d (id l) = [l].
Proof.
  intros Hnd Hin. unfold select_leave.
  now apply (filter_key_unique id Z.eqb Z.eqb_eq).
Qed.

(** ** The Balance Normalizer *)

Import Database.

(** Closed form of a run under an arbitrary fault schedule: the five
    statements connect, BEGIN, SELECT, UPDATE, COMMIT must all succeed
    for the update to be committed; in every other run the committed
    database is the one the run started from. *)
Lemma normalizeEmployeeBalances_outcome (fs : list bool) (p : string) (d : db) :
  normalizeEmployeeBalances fs p d =
  match select_employees_exact d p with
  | [] =>
      (inr (if any_fault (firstn 4 fs) then StoreFailure else EmployeeNotFound), d)
  | employee :: _ =>
      if any_fault (firstn 5 fs) then (inr StoreFailure, d)
      else
        let nb := normalizedBalances employee in
        (inl nb,
         update_balances (n_cl_balance nb) (n_rh_balance nb) (n_el_balance nb) p d)
  end.
Proof.
  unfold normalizeEmployeeBalances, try_catch, normalize_try, bind, BEGIN,
    COMMIT, ROLLBACK, query, throw, ret, next_fault, any_fault.
  destruct fs as [|[] [|[] [|[] [|[] [|[] [|[] fs]]]]]]; simpl;
    destruct (select_employees_exact d p); reflexivity.
Qed.

Lemma normalizeEmployeeBalances_reliable (p : string) (d : db) :
  normalizeEmployeeBalances [] p d =
  match select_employees_exact d p with
  | [] => (inr EmployeeNotFound, d)
  | employee :: _ =>
      let nb := normalizedBalances employee in
      (inl nb,
       update_balances (n_cl_balance nb) (n_rh_balance nb) (n_el_balance nb) p d)
  end.
Proof. now rewrite normalizeEmployeeBalances_outcome. Qed.

Lemma select_after_update_balances (cl rh el : Z) (p : string) (d : db) :
  select_employees_exact (update_balances cl rh el p d) p
  = map (set_balances cl rh el) (select_employees_exact d p).
Proof.
  unfold select_employees_exact, update_balances; simpl.
  induction (employees d) as [|a l IH]; simpl; [reflexivity|].
  destruct (String.eqb (employee_id a) p) eqn:E; simpl; rewrite E; simpl;
    now rewrite IH.
Qed.

Lemma update_balances_twice (cl rh el : Z) (p : string) (d : db) :
  update_balances cl rh el p (update_balances cl rh el p d)
  = update_balances cl rh el p d.
Proof.
  unfold update_balances, with_employees; simpl. f_equal.
  rewrite map_map. apply map_ext. intros a.
  destruct (String.eqb (employee_id a) p) eqn:E; simpl; now rewrite E.
Qed.

Lemma normalizedBalances_range (e : employee) :
  0 <= n_cl_balance (normalizedBalances e) <= 30
  /\ 0 <= n_rh_balance (normalizedBalances e) <= 15
  /\ 0 <= n_el_balance (normalizedBalances e) <= 18.
Proof.
  unfold normalizedBalances; simpl.
  pose proof (normalizeLeaveBalance_nonneg (of_column (cl_balance e))).
  pose proof (normalizeLeaveBalance_nonneg (of_column (rh_balance e))).
  pose proof (normalizeLeaveBalance_nonneg (of_column (el_balance e))).
  lia.
Qed.

Lemma normalizedBalances_fixed (cl rh el : Z) (e : employee) :
  0 <= cl <= 30 -> 0 <= rh <= 15 -> 0 <= el <= 18 ->
  normalizedBalances (set_balances cl rh el e) = mkNormalized cl rh el.
Proof.
  intros Hc Hr He. unfold normalizedBalances, set_balances.
  cbn [cl_balance rh_balance el_balance of_column].
  rewrite !normalizeLeaveBalance_fixed by (unfold exponent_limit; lia).
  f_equal; lia.
Qed.

(** C8: [normalizeEmployeeBalances] is atomic under every fault schedule.
    When it returns, the employee was found, no statement failed and the
    committed database is the old one with all three balances of that
    employee replaced by their normalised values; when it throws, the
    committed database is exactly the one it started from, and the error
    is 'Employee not found' when the identifier resolves to no row and no
    statement failed. *)
Theorem normalizeEmployeeBalances_atomic
  (fs : list bool) (employeeId : string) (d : db) :
  match normalizeEmployeeBalances fs employeeId d with
  | (inl nb, d') =>
      exists employee rest,
        select_employees_exact d employeeId = employee :: rest
        /\ nb = normalizedBalances employee
        /\ any_fault (firstn 5 fs) = false
        /\ d' = update_balances (n_cl_balance nb) (n_rh_balance nb)
                                (n_el_balance nb) employeeId d
  | (inr err, d') =>
      d' = d
      /\ match select_employees_exact d employeeId with
         | [] => err = if any_fault (firstn 4 fs) then StoreFailure
                       else EmployeeNotFound
         | _ :: _ => err = StoreFailure /\ any_fault (firstn 5 fs) = true
         end
  end.
Proof.
  rewrite normalizeEmployeeBalances_outcome.
  destruct (select_employees_exact d employeeId) as [|employee rest] eqn:Hsel.
  - now split.
  - destruct (any_fault (firstn 5 fs)) eqn:Hf.
    + now repeat split.
    + exists employee, rest. now repeat split.
Qed.

(** C4: for an employee of the table (identifiers being unique), a run of
    [normalizeEmployeeBalances] on a reliable store returns, for each
    leave type, the minimum of the type's cap (CL 30, RH 15, EL 18) and
    [normalizeLeaveBalance] of the stored value; each returned balance lies
    between 0 and the cap; the one row read back under the employee's
    identifier then holds the three returned numbers in its balance
    columns, each between 0 and the cap, under the name and email it had;
    and a second run returns the same values and leaves the database as
    the first run left it. *)
Theorem normalizeEmployeeBalances_clamps_and_is_idempotent
  (d : db) (e : employee) :
  NoDup (map employee_id (employees d)) ->
  In e (employees d) ->
  exists nb d' e',
    normalizeEmployeeBalances [] (employee_id e) d = (inl nb, d')
    /\ n_cl_balance nb
       = Z.min (Spec.typeCap "CL") (normalizeLeaveBalance (of_column (cl_balance e)))
    /\ n_rh_balance nb
       = Z.min (Spec.typeCap "RH") (normalizeLeaveBalance (of_column (rh_balance e)))
    /\ n_el_balance nb
       = Z.min (Spec.typeCap "EL") (normalizeLeaveBalance (of_column (el_balance e)))
    /\ 0 <= n_cl_balance nb <= Spec.typeCap "CL"
    /\ 0 <= n_rh_balance nb <= Spec.typeCap "RH"
    /\ 0 <= n_el_balance nb <= Spec.typeCap "EL"
    /\ select_employees_exact d' (employee_id e) = [e']
    /\ cl_balance e' = Some (n_cl_balance nb)
    /\ rh_balance e' = Some (n_rh_balance nb)
    /\ el_balance e' = Some (n_el_balance nb)
    /\ (exists cl rh el,
          (cl_balance e', rh_balance e', el_balance e') = (Some cl, Some rh, Some el)
          /\ 0 <= cl <= Spec.typeCap "CL" /\ 0 <= rh <= Spec.typeCap "RH"
          /\ 0 <= el <= Spec.typeCap "EL")
    /\ (employee_id e', full_name e', email e')
       = (employee_id e, full_name e, email e)
    /\ normalizeEmployeeBalances [] (employee_id e) d' = (inl nb, d').
Proof.
  intros Hnd Hin.
  pose proof (select_employees_exact_unique d e Hnd Hin) as Hsel.
  pose proof (normalizedBalances_range e) as (Hcl & Hrh & Hel).
  exists (normalizedBalances e).
  eexists. eexists. split.
  { rewrite normalizeEmployeeBalances_reliable, Hsel. reflexivity. }
  change (Spec.typeCap "CL") with 30.
  change (Spec.typeCap "RH") with 15.
  change (Spec.typeCap "EL") with 18.
  repeat (split; [first [reflexivity | lia | exact Hcl | exact Hrh | exact Hel]|]).
  split.
  { rewrite select_after_update_balances, Hsel. reflexivity. }
  cbn [set_balances cl_balance rh_balance el_balance employee_id full_name email].
  split; [reflexivity|]. split; [reflexivity|]. split; [reflexivity|].
  split.
  { do 3 eexists. split; [reflexivity|]. now repeat split. }
  split; [reflexivity|].
  rewrite normalizeEmployeeBalances_reliable, select_after_update_balances, Hsel.
  destruct (normalizedBalances e) as [cl rh el].
  cbn [n_cl_balance n_rh_balance n_el_balance map] in *.
  rewrite (normalizedBalances_fixed cl rh el e) by assumption.
  cbn [n_cl_balance n_rh_balance n_el_balance].
  now rewrite update_balances_twice.
Qed.

Lemma normalizeEmployeeBalances_clamps_and_is_idempotent_witness :
  cl_balance Sample.cara = Some (-5) /\ rh_balance Sample.cara = None
  /\ el_balance Sample.cara = Some 50
  /\ exists nb d' e',
       normalizeEmployeeBalances [] "EMP3" Sample.payroll = (inl nb, d')
       /\ nb = mkNormalized 0 0 18
       /\ select_employees_exact d' "EMP3" = [e']
       /\ (cl_balance e', rh_balance e', el_balance e')
          = (Some 0, Some 0, Some 18)
       /\ normalizeEmployeeBalances [] "EMP3" d' = (inl nb, d').
Proof.
  repeat (split; [reflexivity|]).
  destruct (normalizeEmployeeBalances_clamps_and_is_idempotent
              Sample.payroll Sample.cara) as (nb & d' & e' & H).
  - simpl. repeat constructor; simpl; intuition discriminate.
  - simpl. auto.
  - exists nb, d', e'. simpl in H.
    destruct H as (H1 & H2 & H3 & H4 & _ & _ & _ & H8 & H9 & H10 & H11 & _ & _ & H14).
    destruct nb as [cl rh el]. cbn [n_cl_balance n_rh_balance n_el_balance] in *.
    subst cl rh el. rewrite H9, H10, H11.
    repeat split; assumption.
Defined.

(** ** The Integrity Sweeper *)

(** Normalising the listed rows one after the other rewrites exactly
    the listed rows, each to its normalised form. *)
Lemma normalize_each_closed (rows : list employee) (d : db) :
  NoDup (map employee_id (employees d)) ->
  (forall r, In r rows -> In (employee_id r) (map employee_id (employees d))) ->
  normalize_each rows d
  = (inl tt,
     with_employees d
       (map (fun e => if listed rows e then normalize_row e else e)
            (employees d))).
Proof.
  revert d. induction rows as [|r rows IH]; intros d Hnd Hsub.
  - simpl. unfold with_employees. rewrite map_id. now destruct d.
  - cbn [normalize_each].
    destruct (proj1 (in_map_iff _ _ _) (Hsub r (or_introl eq_refl)))
      as (e0 & Hid0 & Hin0).
    rewrite normalizeEmployeeBalances_reliable.
    rewrite <- Hid0, select_employees_exact_unique by assumption.
    cbv beta iota zeta.
    set (d1 := update_balances _ _ _ _ d).
    assert (Hids : map employee_id (employees d1) = map employee_id (employees d)).
    { unfold d1, update_balances, with_employees. cbn [employees].
      apply (map_key_preserved employee_id). intros x.
      now destruct (String.eqb (employee_id x) (employee_id e0)). }
    rewrite IH.
    + f_equal. unfold d1, update_balances, with_employees. cbn [employees].
      f_equal; try reflexivity. rewrite map_map. apply map_ext_in.
      intros x Hx. unfold listed. cbn [existsb].
      rewrite (String.eqb_sym (employee_id r) (employee_id x)), <- Hid0.
      destruct (String.eqb (employee_id x) (employee_id e0)) eqn:E.
      * apply String.eqb_eq in E.
        assert (x = e0) by (eapply key_injective; eauto). subst x.
        cbn [orb].
        change (set_balances (n_cl_balance (normalizedBalances e0))
                  (n_rh_balance (normalizedBalances e0))
                  (n_el_balance (normalizedBalances e0)) e0)
          with (normalize_row e0).
        assert (Hfix : normalize_row (normalize_row e0) = normalize_row e0).
        { pose proof (normalizedBalances_range e0) as (Hc & Hr & He).
          unfold normalize_row.
          rewrite normalizedBalances_fixed by assumption. reflexivity. }
        rewrite Hfix. now destruct (existsb _ rows).
      * reflexivity.
    + now rewrite Hids.
    + intros r' Hr'. rewrite Hids. apply Hsub. now right.
Qed.

Lemma normalize_row_in_range (e : employee) :
  (sql_lt (cl_balance (normalize_row e)) 0
   || sql_lt (rh_balance (normalize_row e)) 0
   || sql_lt (el_balance (normalize_row e)) 0) = false
  /\ (sql_gt (cl_balance (normalize_row e)) 30
      || sql_gt (rh_balance (normalize_row e)) 15
      || sql_gt (el_balance (normalize_row e)) 30) = false.
Proof.
  pose proof (normalizedBalances_range e) as (Hc & Hr & He).
  unfold normalize_row, set_balances, sql_lt, sql_gt.
  cbn [cl_balance rh_balance el_balance].
  split; rewrite !orb_false_iff, !Z.ltb_ge; lia.
Qed.

(** What one sweep over a table with unique identifiers achieves: no
    balance is left negative, no casual balance above 30, no restricted
    balance above 15 and no earned balance above 30. *)
Lemma checkDataIntegrity_result (d : db) :
  NoDup (map employee_id (employees d)) ->
  select_negative_balances (checkDataIntegrity d) = []
  /\ select_high_balances (checkDataIntegrity d) = [].
Proof.
  intros Hnd. unfold checkDataIntegrity.
  rewrite normalize_each_closed; try assumption.
  2:{ intros r Hr. unfold select_negative_balances in Hr.
      apply filter_In in Hr as [Hr _]. now apply in_map. }
  set (neg := select_negative_balances d).
  set (d1 := with_employees d _).
  assert (Hids : map employee_id (employees d1) = map employee_id (employees d)).
  { unfold d1, with_employees. cbn [employees].
    apply (map_key_preserved employee_id). intros x.
    now destruct (listed neg x). }
  rewrite normalize_each_closed.
  2:{ now rewrite Hids. }
  2:{ intros r Hr. unfold select_high_balances in Hr.
      apply filter_In in Hr as [Hr _]. now apply in_map. }
  cbn [snd]. set (high := select_high_balances d1).
  assert (Hnone : forall (P : employee -> bool) l, (forall x, In x l -> P x = false) ->
                    filter P l = []).
  { intros P l. induction l as [|a l IHl]; simpl; intros Hall; [reflexivity|].
    rewrite (Hall a) by now left. apply IHl. intros x Hx. apply Hall. now right. }
  assert (Hself : forall rows x, In x rows -> listed rows x = true).
  { intros rows x Hx. unfold listed. apply existsb_exists.
    exists x. split; [assumption|apply String.eqb_refl]. }
  assert (Hstep1 : forall x, In x (employees d1) ->
            (sql_lt (cl_balance x) 0 || sql_lt (rh_balance x) 0
             || sql_lt (el_balance x) 0) = false).
  { intros x Hx. unfold d1, with_employees in Hx. cbn [employees] in Hx.
    apply in_map_iff in Hx as (y & <- & Hy).
    destruct (listed neg y) eqn:E; [apply normalize_row_in_range|].
    destruct (sql_lt (cl_balance y) 0 || sql_lt (rh_balance y) 0
              || sql_lt (el_balance y) 0) eqn:F; [|reflexivity].
    rewrite Hself in E; [discriminate|].
    unfold neg, select_negative_balances. apply filter_In. now split. }
  unfold select_negative_balances, select_high_balances, with_employees.
  cbn [employees].
  split; apply Hnone; intros x Hx;
    apply in_map_iff in Hx as (y & <- & Hy);
    destruct (listed high y) eqn:E; try apply normalize_row_in_range.
  - now apply Hstep1.
  - destruct (sql_gt (cl_balance y) 30 || sql_gt (rh_balance y) 15
              || sql_gt (el_balance y) 30) eqn:F; [|reflexivity].
    rewrite Hself in E; [discriminate|].
    unfold high, select_high_balances. apply filter_In. now split.
Qed.

(** The sweep of the specification's example: a casual balance of -5 and
    an earned balance of 50 are brought to 0 and 18, and a second sweep
    changes nothing. *)
Example checkDataIntegrity_repairs_payroll :
  map (fun e => (cl_balance e, rh_balance e, el_balance e))
      (employees (checkDataIntegrity Sample.payroll))
  = [(Some 0, Some 0, Some 18); (Some 30, Some 2, Some 18)]
  /\ checkDataIntegrity (checkDataIntegrity Sample.payroll)
     = checkDataIntegrity Sample.payroll.
Proof. split; reflexivity. Qed.

(** C6, the code on a table whose only employee has an earned balance of
    25 (casual 10, restricted 15): the high-balance query tests
    [el_balance > 30], so the sweep selects nobody and leaves the table as
    it is, with the earned balance above the cap of 18 that the Balance
    Normalizer would have enforced. *)
Theorem checkDataIntegrity_leaves_el_25 :
  el_balance Sample.ann = Some 25
  /\ Spec.typeCap "EL" < 25
  /\ select_high_balances Sample.staff_of_one = []
  /\ checkDataIntegrity Sample.staff_of_one = Sample.staff_of_one
  /\ map el_balance (employees (checkDataIntegrity Sample.staff_of_one)) = [Some 25]
  /\ map el_balance
       (employees (snd (normalizeEmployeeBalances [] "EMP1" Sample.staff_of_one)))
     = [Some 18].
Proof. repeat split; reflexivity. Qed.

(** ** Identifier case *)

Import Employees Leaves.

Lemma is_whitespace_lower (c : ascii) :
  is_whitespace (lower_char c) = is_whitespace c.
Proof. destruct c as [[] [] [] [] [] [] [] []]; reflexivity. Qed.

Lemma toLowerCase_trimStart (s : string) :
  toLowerCase (trimStart s) = trimStart (toLowerCase s).
Proof.
  unfold toLowerCase. induction s as [|c r IH]; [reflexivity|].
  cbn [trimStart map_chars]. rewrite is_whitespace_lower.
  now destruct (is_whitespace c).
Qed.

Lemma toLowerCase_trimEnd (s : string) :
  toLowerCase (trimEnd s) = trimEnd (toLowerCase s).
Proof.
  unfold toLowerCase. induction s as [|c r IH]; [reflexivity|].
  cbn [trimEnd map_chars]. rewrite <- IH, is_whitespace_lower.
  destruct (trimEnd r); cbn [map_chars]; [|reflexivity].
  now destruct (is_whitespace c).
Qed.

Lemma toLowerCase_trim (s : string) : toLowerCase (trim s) = trim (toLowerCase s).
Proof. unfold trim. now rewrite toLowerCase_trimEnd, toLowerCase_trimStart. Qed.

Lemma toLowerCase_empty (s : string) :
  String.eqb (toLowerCase s) "" = String.eqb s "".
Proof. now destruct s. Qed.

(** The routes of [routes/employees.js] compare identifiers under LOWER:
    [GET /:employeeId] answers alike for two identifiers that differ only
    in the case of their letters. *)
Lemma getEmployee_case_insensitive (a b : string) (d : db) :
  toLowerCase a = toLowerCase b -> getEmployee a d = getEmployee b d.
Proof.
  intros Hab.
  assert (Htrim : toLowerCase (trim a) = toLowerCase (trim b))
    by (rewrite !toLowerCase_trim; now rewrite Hab).
  unfold getEmployee, validateEmployeeId, select_employees_lower, LOWER.
  rewrite <- (toLowerCase_empty a), <- (toLowerCase_empty b),
    <- (toLowerCase_empty (trim a)), <- (toLowerCase_empty (trim b)).
  now rewrite Hab, Htrim.
Qed.

(** C9, the code on identifiers that differ only in case, the stored one
    being EMP1: [GET /:employeeId] answers alike for emp1 and EMP1, but
    [normalizeEmployeeBalances] finds no row for emp1 (its WHERE clause
    compares without LOWER), so the fix-balances route answers 500 after
    its own case-insensitive check succeeded; and [POST /api/leaves] for
    emp1 misses the overlapping leave that it reports for EMP1, its
    overlap query comparing without LOWER too, and then fails on the
    foreign key. *)
Theorem employee_lookup_not_always_case_insensitive :
  getEmployee "emp1" Sample.office = getEmployee "EMP1" Sample.office
  /\ fst (normalizeEmployeeBalances [] "EMP1" Sample.office)
     = inl (mkNormalized 10 15 18)
  /\ normalizeEmployeeBalances [] "emp1" Sample.office
     = (inr EmployeeNotFound, Sample.office)
  /\ fst (fixBalances "EMP1" Sample.office) = inl (mkNormalized 10 15 18)
  /\ fixBalances "emp1" Sample.office = (inr InternalError, Sample.office)
  /\ fst (createLeave utc (Sample.noon 50) Sample.clashing_request None
            Sample.office)
     = inr OverlapConflict
  /\ fst (createLeave utc (Sample.noon 50) Sample.lowercase_request None
            Sample.office)
     = inr InternalError.
Proof. repeat split; reflexivity. Qed.

(** ** Creating a leave request *)

Ltac break_match_in H :=
  match type of H with
  | context [match ?x with _ => _ end] => destruct x eqn:?
  end.

Lemma day_of_Day (x : date_input) (n : Z) : day_of x = Some n -> x = Day n.
Proof. destruct x; simpl; congruence. Qed.

Lemma normalizeLeaveType_canonical (type : option string) (t : string) :
  normalizeLeaveType type = Some t -> In t ["CL"; "RH"; "EL"].
Proof.
  unfold normalizeLeaveType, includes.
  destruct (existsb _ _) eqn:E; [|discriminate].
  intros [= <-]. apply existsb_exists in E as (x & Hx & Heq).
  apply String.eqb_eq in Heq. now subst.
Qed.

Lemma validateLeaveType_normalizes (type : option string) :
  validateLeaveType type = true ->
  normalizeLeaveType type = Some (trim (toUpperCase (or_empty type))).
Proof.
  unfold validateLeaveType, normalizeLeaveType. now intros ->.
Qed.


Lemma all_spaces_trimEnd (s : string) :
  all_spaces s = true -> trimEnd s = EmptyString.
Proof.
  induction s as [|c r IH]; [reflexivity|].
  cbn [all_spaces trimEnd]. intros H. apply andb_true_iff in H as [Hc Hr].
  rewrite (IH Hr). apply Ascii.eqb_eq in Hc. now subst c.
Qed.

(** A text without blanks at its end is stored as it is or refused: no
    character of it is dropped. *)
Lemma varchar_kept (n : nat) (t x : string) :
  trimEnd t = t -> varchar n t = Some x -> x = t.
Proof.
  revert n x. induction t as [|c r IH]; intros n x Hfix Hv.
  - now injection Hv as <-.
  - destruct n as [|n]; cbn [varchar] in Hv.
    + destruct (all_spaces (String c r)) eqn:E; [|discriminate].
      apply all_spaces_trimEnd in E. congruence.
    + destruct (varchar n r) as [y|] eqn:Hy; [|discriminate].
      injection Hv as <-. f_equal. apply (IH n); [|assumption].
      cbn [trimEnd] in Hfix. destruct (trimEnd r) as [|a r'] eqn:Hr.
      * destruct (is_whitespace c); [discriminate|]. now injection Hfix as <-.
      * now injection Hfix as <-.
Qed.

Lemma trimEnd_idempotent (s : string) : trimEnd (trimEnd s) = trimEnd s.
Proof.
  induction s as [|c r IH]; [reflexivity|].
  cbn [trimEnd]. destruct (trimEnd r) as [|a r'] eqn:E.
  - destruct (is_whitespace c) eqn:W; [reflexivity|].
    cbn [trimEnd]. now rewrite W.
  - cbn [trimEnd]. cbn [trimEnd] in IH. now rewrite IH.
Qed.

Lemma varchar_trimmed (n : nat) (s x : string) :
  varchar n (trim s) = Some x -> x = trim s.
Proof. apply varchar_kept. unfold trim. apply trimEnd_idempotent. Qed.

(** The middleware touches no table. *)
Lemma uploadLeaveDoc_tables (file : option string) (d : db) :
  employees (uploadLeaveDoc file d) = employees d
  /\ leaves (uploadLeaveDoc file d) = leaves d
  /\ leaves_id_seq (uploadLeaveDoc file d) = leaves_id_seq d.
Proof. destruct file; now repeat split. Qed.

(** What a created answer of the handler tells about the request and the
    row. *)
Lemma createLeave_handler_created
  (tz : zone) (now : Z) (body : create_body) (file : option string)
  (d d' : db) (row : leave) :
  createLeave_handler tz now body file d = (inl row, d') ->
  exists t s e doc,
    normalizeLeaveType (body_leave_type body) = Some t
    /\ body_start_date body = Day s
    /\ body_end_date body = Day e
    /\ varchar_if_any 255 (option_map slashes file) = Some doc
    /\ row = mkLeave (leaves_id_seq d)
                     (trim (or_empty (body_employee_id body))) t s e
                     (calculateLeaveDays tz s e)
                     (sanitizeInput (trim (or_empty (body_reason body))))
                     "PENDING" None None doc
    /\ d' = mkDb (employees d) (leaves d ++ [row]) (leaves_id_seq d + 1)
                 (uploads d).
Proof.
  unfold createLeave_handler. intros H.
  repeat (break_match_in H; try discriminate).
  unfold insert_leave in *.
  repeat match goal with
         | Hi : context [match ?x with _ => _ end] |- _ =>
             destruct x eqn:?; try discriminate
         end.
  repeat match goal with
         | Hd : day_of _ = Some _ |- _ => apply day_of_Day in Hd
         | Hv : varchar _ (trim _) = Some _ |- _ => apply varchar_trimmed in Hv
         | Hp : (_, _) = (_, _) |- _ => injection Hp as ? ?; subst
         end.
  do 4 eexists. repeat split; eauto.
Qed.

(** The same of the route: the tables are those of before the request
    with the row added, and the uploaded document is in place. *)
Lemma createLeave_created
  (tz : zone) (now : Z) (body : create_body) (file : option string)
  (d d' : db) (row : leave) :
  createLeave tz now body file d = (inl row, d') ->
  exists t s e doc,
    normalizeLeaveType (body_leave_type body) = Some t
    /\ body_start_date body = Day s
    /\ body_end_date body = Day e
    /\ varchar_if_any 255 (option_map slashes file) = Some doc
    /\ row = mkLeave (leaves_id_seq d)
                     (trim (or_empty (body_employee_id body))) t s e
                     (calculateLeaveDays tz s e)
                     (sanitizeInput (trim (or_empty (body_reason body))))
                     "PENDING" None None doc
    /\ d' = mkDb (employees d) (leaves d ++ [row]) (leaves_id_seq d + 1)
                 (uploads (uploadLeaveDoc file d)).
Proof.
  unfold createLeave. intros H. apply createLeave_handler_created in H.
  destruct file; exact H.
Qed.

(** The handler up to the balance check, for a request that passes the
    validation and resolves to an employee. *)
Lemma createLeave_handler_after_validation
  (tz : zone) (now : Z) (body : create_body) (file : option string) (d : db)
  (emp : employee) (rest : list employee) (s e : Z) :
  validateEmployeeId (body_employee_id body) = true ->
  validateLeaveType (body_leave_type body) = true ->
  body_start_date body = Day s ->
  body_end_date body = Day e ->
  validateDateRange tz now (Day s) (Day e) = true ->
  reason_missing (body_reason body) = false ->
  select_employees_lower d (trim (or_empty (body_employee_id body)))
  = emp :: rest ->
  createLeave_handler tz now body file d =
  let employee_id := or_empty (body_employee_id body) in
  let leave_type := or_empty (body_leave_type body) in
  let days := calculateLeaveDays tz s e in
  let balanceField := balanceField leave_type in
  if js_lt (employee_field emp balanceField) days
  then (inr (InsufficientBalance leave_type
               (employee_field emp balanceField) days), d)
  else
    match select_overlapping d (trim employee_id) s e with
    | _ :: _ => (inr OverlapConflict, d)
    | [] =>
        match insert_leave (trim employee_id)
                (normalizeLeaveType (body_leave_type body)) s e days
                (sanitizeInput (trim (or_empty (body_reason body))))
                (option_map slashes file) d with
        | (Some row, d') => (inl row, d')
        | (None, d') => (inr InternalError, d')
        end
    end.
Proof.
  intros Hid Htype Hs He Hrange Hreason Hemp.
  unfold createLeave_handler.
  rewrite Hid, Htype, Hs, He. cbn [negb is_missing orb day_of].
  rewrite Hrange, Hreason. cbn [negb].
  rewrite Hemp.
  rewrite validateLeaveDays_truthy by apply calculateLeaveDays_ge_1.
  reflexivity.
Qed.

(** The same of the route, the database the handler works on being the
    one the middleware left. *)
Lemma createLeave_after_validation
  (tz : zone) (now : Z) (body : create_body) (file : option string) (d : db)
  (emp : employee) (rest : list employee) (s e : Z) :
  validateEmployeeId (body_employee_id body) = true ->
  validateLeaveType (body_leave_type body) = true ->
  body_start_date body = Day s ->
  body_end_date body = Day e ->
  validateDateRange tz now (Day s) (Day e) = true ->
  reason_missing (body_reason body) = false ->
  select_employees_lower d (trim (or_empty (body_employee_id body)))
  = emp :: rest ->
  createLeave tz now body file d =
  let employee_id := or_empty (body_employee_id body) in
  let leave_type := or_empty (body_leave_type body) in
  let days := calculateLeaveDays tz s e in
  let balanceField := balanceField leave_type in
  if js_lt (employee_field emp balanceField) days
  then (inr (InsufficientBalance leave_type
               (employee_field emp balanceField) days),
        uploadLeaveDoc file d)
  else
    match select_overlapping d (trim employee_id) s e with
    | _ :: _ => (inr OverlapConflict, uploadLeaveDoc file d)
    | [] =>
        match insert_leave (trim employee_id)
                (normalizeLeaveType (body_leave_type body)) s e days
                (sanitizeInput (trim (or_empty (body_reason body))))
                (option_map slashes file) (uploadLeaveDoc file d) with
        | (Some row, d') => (inl row, d')
        | (None, d') => (inr InternalError, d')
        end
    end.
Proof.
  intros Hid Htype Hs He Hrange Hreason Hemp. unfold createLeave.
  rewrite (createLeave_handler_after_validation tz now body file
             (uploadLeaveDoc file d) emp rest s e); try assumption.
  - now destruct file.
  - now destruct file.
Qed.

Lemma validateDateRange_ordered (tz : zone) (now s e : Z) :
  validateDateRange tz now (Day s) (Day e) = true ->
  tz now <= s * msPerDay /\ s <= e.
Proof.
  unfold validateDateRange, time_value, msPerDay.
  intros H. apply andb_true_iff in H as [H1 H2].
  apply Z.leb_le in H1, H2. lia.
Qed.

(** When the requested type is written without blanks, so that the field
    name built from it is a balance column, a balance below the day count
    is answered with InsufficientBalance, naming the balance and the day
    count, and no table is touched. *)
Lemma createLeave_insufficient_balance
  (tz : zone) (now : Z) (body : create_body) (file : option string) (d : db)
  (emp : employee) (rest : list employee) (s e : Z) (balance : option Z) :
  validateEmployeeId (body_employee_id body) = true ->
  validateLeaveType (body_leave_type body) = true ->
  body_start_date body = Day s ->
  body_end_date body = Day e ->
  validateDateRange tz now (Day s) (Day e) = true ->
  reason_missing (body_reason body) = false ->
  select_employees_lower d (trim (or_empty (body_employee_id body)))
  = emp :: rest ->
  balance_column (balanceField (or_empty (body_leave_type body))) emp
  = Some balance ->
  js_lt (of_column balance) (calculateLeaveDays tz s e) = true ->
  createLeave tz now body file d
  = (inr (InsufficientBalance (or_empty (body_leave_type body))
            (of_column balance) (calculateLeaveDays tz s e)),
     uploadLeaveDoc file d).
Proof.
  intros Hid Htype Hs He Hrange Hreason Hemp Hcol Hlt.
  rewrite (createLeave_after_validation tz now body file d emp rest s e)
    by assumption.
  cbv zeta. unfold employee_field. rewrite Hcol, Hlt. reflexivity.
Qed.

(** C2, the code on a request whose type is written [cl] followed by a
    blank, for one day, by an employee whose casual balance is 0 (the
    server keeping UTC): the type is accepted, the field name built from
    it names no column, the balance comparison is made with [undefined]
    and is false, and the request is stored although the balance (0) is
    below the day count (1). *)
Theorem createLeave_padded_type_skips_balance_check :
  cl_balance Sample.bob = Some 0
  /\ validateLeaveType (body_leave_type Sample.padded_request) = true
  /\ exists row d',
       createLeave utc (Sample.noon 50) Sample.padded_request None Sample.office
       = (inl row, d')
       /\ leave_employee_id row = "EMP2"
       /\ leave_type row = "CL"
       /\ days row = 1
       /\ leaves d' = leaves Sample.office ++ [row].
Proof.
  split; [reflexivity|]. split; [reflexivity|].
  do 2 eexists. split; [vm_compute; reflexivity|].
  repeat split; reflexivity.
Qed.

(** C10: whatever the local time of the server, a leave row returned by
    a successful [POST /api/leaves] has status PENDING, its type is one of
    CL, RH, EL and is [normalizeLeaveType] of the type the request gave,
    its day count is at least 1, and it is the one row the call added to
    the table. *)
Theorem createLeave_persists_pending_canonical_row
  (tz : zone) (now : Z) (body : create_body) (file : option string)
  (d d' : db) (row : leave) :
  createLeave tz now body file d = (inl row, d') ->
  status row = "PENDING"
  /\ In (leave_type row) ["CL"; "RH"; "EL"]
  /\ normalizeLeaveType (body_leave_type body) = Some (leave_type row)
  /\ 1 <= days row
  /\ leaves d' = leaves d ++ [row].
Proof.
  intros H.
  apply createLeave_created in H as (t & s & e & doc & Ht & _ & _ & _ & -> & ->).
  cbn [status leave_type days leaves].
  repeat split; try assumption.
  - now apply normalizeLeaveType_canonical with (type := body_leave_type body).
  - apply calculateLeaveDays_ge_1.
Qed.

Lemma createLeave_persists_pending_canonical_row_witness :
  exists row d',
    createLeave utc (Sample.noon 50) Sample.blank_padded_request None
      Sample.office = (inl row, d')
    /\ leave_type row = "RH"
    /\ status row = "PENDING"
    /\ normalizeLeaveType (Some " rh ") = Some (leave_type row)
    /\ 1 <= days row.
Proof.
  destruct (createLeave utc (Sample.noon 50) Sample.blank_padded_request None
              Sample.office)
    as [[row|failed] d'] eqn:E; [|vm_compute in E; discriminate].
  exists row, d'.
  destruct (createLeave_persists_pending_canonical_row
              utc (Sample.noon 50) Sample.blank_padded_request None
              Sample.office d' row E)
    as (Hst & _ & Hty & Hdays & _).
  vm_compute in E. injection E as <- <-.
  repeat split; try reflexivity. vm_compute. discriminate.
Defined.

(** The rows the overlap query selects, in the words of the
    specification. *)
Lemma select_overlapping_spec (d : db) (p : string) (s e : Z) (l : leave) :
  start_date l <= end_date l -> s <= e ->
  (In l (select_overlapping d p s e) <->
   In l (leaves d)
   /\ leave_employee_id l = p
   /\ status l <> "REJECTED"
   /\ Spec.inclusive_overlap (start_date l) (end_date l) s e = true).
Proof.
  intros Hl Hse. unfold select_overlapping, overlap_condition.
  rewrite filter_In, !andb_true_iff, negb_true_iff, String.eqb_eq,
    String.eqb_neq, overlap_cases_inclusive by assumption.
  tauto.
Qed.

(** What the overlap check does achieve. For a request that passes the
    validation, resolves to an employee and passes the balance check, over
    a table whose leaves all end no earlier than they start, the route
    answers with the overlap conflict if and only if some leave stored
    under the identifier exactly as the request writes it (trimmed), not
    REJECTED, has a range meeting the requested one in the inclusive
    sense. A leave of the same employee stored under another spelling of
    the identifier is not looked at. *)
Lemma createLeave_overlap_conflict_iff
  (tz : zone) (now : Z) (body : create_body) (file : option string) (d : db)
  (emp : employee) (rest : list employee) (s2 e2 : Z) :
  validateEmployeeId (body_employee_id body) = true ->
  validateLeaveType (body_leave_type body) = true ->
  body_start_date body = Day s2 ->
  body_end_date body = Day e2 ->
  validateDateRange tz now (Day s2) (Day e2) = true ->
  reason_missing (body_reason body) = false ->
  select_employees_lower d (trim (or_empty (body_employee_id body)))
  = emp :: rest ->
  js_lt (employee_field emp (balanceField (or_empty (body_leave_type body))))
        (calculateLeaveDays tz s2 e2) = false ->
  (forall l, In l (leaves d) -> start_date l <= end_date l) ->
  (fst (createLeave tz now body file d) = inr OverlapConflict <->
   exists l,
     In l (leaves d)
     /\ leave_employee_id l = trim (or_empty (body_employee_id body))
     /\ status l <> "REJECTED"
     /\ Spec.inclusive_overlap (start_date l) (end_date l) s2 e2 = true).
Proof.
  intros Hid Htype Hs He Hrange Hreason Hemp Hbal Hwf.
  destruct (validateDateRange_ordered _ _ _ _ Hrange) as [_ Hse].
  rewrite (createLeave_after_validation tz now body file d emp rest s2 e2)
    by assumption.
  cbv zeta. rewrite Hbal.
  destruct (select_overlapping d _ s2 e2) as [|l ls] eqn:Hov.
  - split.
    + destruct (insert_leave _ _ _ _ _ _ _ _) as [[row|] d']; discriminate.
    + intros (l & Hin & Hrest). exfalso.
      assert (Hsel : In l (select_overlapping d
                             (trim (or_empty (body_employee_id body))) s2 e2))
        by (apply select_overlapping_spec; auto).
      rewrite Hov in Hsel. contradiction.
  - split; [intros _|reflexivity].
    assert (Hsel : In l (select_overlapping d
                           (trim (or_empty (body_employee_id body))) s2 e2))
      by (rewrite Hov; now left).
    exists l.
    assert (Hin : In l (leaves d))
      by (unfold select_overlapping in Hsel; apply filter_In in Hsel; tauto).
    apply select_overlapping_spec in Hsel; auto.
Qed.

(** C3, the code on a request of the employee EMP1 that writes the
    identifier emp1, for days 102 to 104, while the pending leave of EMP1
    for days 100 to 102 is in the table: the request resolves to EMP1
    (the employee is looked up under LOWER), the two ranges overlap in the
    inclusive sense and in the three cases of the query alike, yet the
    overlap query, which compares the identifier as written, selects
    nothing; no overlap conflict is answered, and the request ends in the
    internal error of the insert, refused on the foreign key. Written
    EMP1, the same request is answered with the overlap conflict. *)
Theorem createLeave_overlap_missed_for_other_spelling :
  select_employees_lower Sample.office "emp1" = [Sample.ann]
  /\ In Sample.trip (leaves Sample.office)
  /\ leave_employee_id Sample.trip = employee_id Sample.ann
  /\ status Sample.trip <> "REJECTED"
  /\ Spec.inclusive_overlap (start_date Sample.trip) (end_date Sample.trip)
       102 104 = true
  /\ overlap_cases (start_date Sample.trip) (end_date Sample.trip) 102 104
     = true
  /\ select_overlapping Sample.office "emp1" 102 104 = []
  /\ fst (createLeave utc (Sample.noon 50) Sample.lowercase_request None
            Sample.office)
     = inr InternalError
  /\ leaves (snd (createLeave utc (Sample.noon 50) Sample.lowercase_request
                    None Sample.office))
     = leaves Sample.office
  /\ createLeave utc (Sample.noon 50) Sample.clashing_request None
       Sample.office
     = (inr OverlapConflict, Sample.office).
Proof.
  repeat split; try reflexivity.
  - simpl. auto.
  - discriminate.
Qed.

(** ** Approving, rejecting and deleting *)


(** For REJECTED the template leaves the qualifier [e.] with no column
    after it, and the store refuses the statement. *)
Lemma resolve_select_list_rejected :
  status_select_list "REJECTED" = "l.*, e."
  /\ resolve_select_list (status_select_list "REJECTED") = None.
Proof. split; reflexivity. Qed.

Lemma updateLeaveStatus_rejected
  (now leaveId : Z) (approved_by : option string) (d : db) :
  approver_missing approved_by = false ->
  updateLeaveStatus now leaveId (Some "REJECTED") approved_by d
  = (inr InternalError, d).
Proof.
  intros Happ. unfold updateLeaveStatus, select_leave_join.
  cbv beta iota zeta. cbn [or_empty].
  destruct resolve_select_list_rejected as [_ ->].
  replace (includes ["APPROVED"; "REJECTED"] "REJECTED") with true
    by reflexivity.
  cbn [negb]. now rewrite Happ.
Qed.













(** The two updates of an approval are not one unit: when the balance
    left is out of the INTEGER range the second update is refused, the
    answer is the internal error, and the leave stays APPROVED over a
    balance from which nothing was deducted. *)
Example updateLeaveStatus_deduction_refused :
  let d := mkDb [mkEmployee "EMP1" "Ann Rao" "ann@example.org"
                            (Some (-2147483647)) (Some 15) (Some 18)]
                [Sample.trip] 2 [] in
  exists d',
    updateLeaveStatus 95 1 (Some "APPROVED") (Some "ADMIN1") d
    = (inr InternalError, d')
    /\ map status (select_leave d' 1) = ["APPROVED"]
    /\ map cl_balance (select_employees_exact d' "EMP1")
       = [Some (-2147483647)].
Proof. eexists. repeat split; reflexivity. Qed.

Lemma select_leave_join_first (text : string) (p : Z) (d : db)
  (r : joined_row) (rs : list joined_row) :
  select_leave_join text p d = Some (r :: rs) ->
  In (row_leave r) (leaves d) /\ id (row_leave r) = p.
Proof.
  unfold select_leave_join.
  destruct (resolve_select_list text) as [names|]; [|discriminate].
  intros [= H].
  assert (Hin : In r (r :: rs)) by now left.
  rewrite <- H in Hin. apply in_flat_map in Hin as (l & Hl & Hr).
  apply in_map_iff in Hr as (e & <- & _). cbn [row_leave].
  unfold select_leave in Hl. apply filter_In in Hl as [Hl Hid].
  apply Z.eqb_eq in Hid. now split.
Qed.

(** The leaves a status request leaves behind: the table is untouched,
    or the request found a pending leave with this id and rewrote the
    rows with this id. *)
Lemma updateLeaveStatus_shape
  (now leaveId : Z) (st approved_by : option string) (d : db) :
  let d' := snd (updateLeaveStatus now leaveId st approved_by d) in
  d' = d
  \/ exists l0 st' by_,
       In l0 (leaves d) /\ id l0 = leaveId /\ status l0 = "PENDING"
       /\ leaves_id_seq d' = leaves_id_seq d
       /\ leaves d' = map (fun x => if id x =? leaveId
                                    then set_status st' by_ now x else x)
                          (leaves d).
Proof.
  cbv zeta. unfold updateLeaveStatus.
  destruct (negb _); [now left|].
  destruct (approver_missing approved_by); [now left|].
  destruct (select_leave_join _ leaveId d) as [[|r rs]|] eqn:Hjoin;
    try (now left).
  apply select_leave_join_first in Hjoin as [Hin Hid].
  destruct (negb (String.eqb (status (row_leave r)) "PENDING")) eqn:Hst;
    [now left|].
  apply negb_false_iff, String.eqb_eq in Hst.
  unfold update_leave_status.
  destruct (includes ["PENDING"; "APPROVED"; "REJECTED"] (or_empty st));
    [|now left].
  destruct (varchar 50 (or_empty approved_by)) as [who|]; [|now left].
  right. exists (row_leave r), (or_empty st), who.
  repeat split; try assumption;
    destruct (String.eqb (or_empty st) "APPROVED"); try reflexivity;
    destruct (js_sub _ _) as [newBalance|]; try reflexivity;
    unfold update_balance_column;
    destruct (set_balance_column _ _ (mkEmployee "" "" "" None None None));
    try reflexivity;
    destruct (int4 newBalance); reflexivity.
Qed.

Lemma deleteLeave_shape (leaveId : Z) (d : db) :
  let d' := snd (deleteLeave leaveId d) in
  d' = d
  \/ exists l0,
       In l0 (leaves d) /\ id l0 = leaveId /\ status l0 = "PENDING"
       /\ leaves_id_seq d' = leaves_id_seq d
       /\ leaves d' = filter (fun x => negb (id x =? leaveId)) (leaves d).
Proof.
  cbv zeta. unfold deleteLeave.
  destruct (select_leave d leaveId) as [|l0 ls] eqn:Hsel; [now left|].
  assert (Hin : In l0 (select_leave d leaveId)) by (rewrite Hsel; now left).
  unfold select_leave in Hin. apply filter_In in Hin as [Hin Hid].
  apply Z.eqb_eq in Hid.
  destruct (negb (String.eqb (status l0) "PENDING")) eqn:Hst; [now left|].
  apply negb_false_iff, String.eqb_eq in Hst.
  right. exists l0. repeat split; try assumption;
    destruct (document_path l0) as [path|]; try reflexivity;
    destruct (negb (String.eqb path "") && existsb (String.eqb path) (uploads d));
    reflexivity.
Qed.

Lemma insert_leave_shape
  (emp : string) (type : option string) (s e n : Z) (why : string)
  (doc : option string) (d : db) :
  let d' := snd (insert_leave emp type s e n why doc d) in
  d' = d
  \/ (leaves d' = leaves d /\ leaves_id_seq d' = leaves_id_seq d + 1)
  \/ exists row,
       id row = leaves_id_seq d
       /\ leaves d' = leaves d ++ [row]
       /\ leaves_id_seq d' = leaves_id_seq d + 1.
Proof.
  cbv zeta. unfold insert_leave.
  destruct (negb (int4 n)); [now left|].
  destruct (varchar 50 emp) as [emp'|]; [|now left].
  destruct (varchar_if_any 255 doc) as [doc'|]; [|now left].
  destruct type as [t|]; [|now right; left].
  destruct (includes ["CL"; "RH"; "EL"] t && _); [|now right; left].
  right; right. eexists. cbn [snd leaves leaves_id_seq with_leaves].
  refine (conj _ (conj eq_refl eq_refl)). reflexivity.
Qed.

Lemma createLeave_shape
  (tz : zone) (now : Z) (body : create_body) (file : option string) (d : db) :
  let d' := snd (createLeave tz now body file d) in
  (leaves d' = leaves d /\ leaves_id_seq d' = leaves_id_seq d)
  \/ (leaves d' = leaves d /\ leaves_id_seq d' = leaves_id_seq d + 1)
  \/ exists row,
       id row = leaves_id_seq d
       /\ leaves d' = leaves d ++ [row]
       /\ leaves_id_seq d' = leaves_id_seq d + 1.
Proof.
  cbv zeta. unfold createLeave.
  destruct (uploadLeaveDoc_tables file d) as (_ & Hl0 & Hs0).
  rewrite <- Hl0, <- Hs0. generalize (uploadLeaveDoc file d). clear.
  intros d. unfold createLeave_handler.
  repeat match goal with
         | |- context [insert_leave ?a ?b ?c ?e ?f ?g ?h ?i] =>
             pose proof (insert_leave_shape a b c e f g h i) as Hins;
             cbv zeta in Hins;
             destruct (insert_leave a b c e f g h i) as [[row|] d0];
             cbn [snd] in *;
             (destruct Hins as [-> | Hins]; [now left|now right])
         | |- context [match ?x with _ => _ end] =>
             destruct x eqn:?; cbn [snd]; try (now left)
         end.
Qed.

(** One request keeps the ids of [leaves] a key below the sequence, and
    keeps every leave that is no longer pending exactly as it is. *)
Lemma serve_keeps_terminal (tz : zone) (r : request) (d : db) (l : leave) :
  leaves_keyed d ->
  In l (leaves d) -> status l <> "PENDING" ->
  leaves_keyed (serve tz r d) /\ In l (leaves (serve tz r d)).
Proof.
  intros [Hnd Hlt] Hin Hst. destruct r as [now body file|now p st by_|p];
    cbn [serve].
  - destruct (createLeave_shape tz now body file d)
      as [[Hl Hs] | [[Hl Hs] | (row & Hid & Hl & Hs)]].
    + rewrite Hl. unfold leaves_keyed. rewrite Hl, Hs. now repeat split.
    + rewrite Hl. unfold leaves_keyed. rewrite Hl, Hs.
      repeat split; auto.
      eapply Forall_impl; [|exact Hlt]. cbv beta. intros; lia.
    + unfold leaves_keyed. rewrite Hl, Hs. repeat split.
      * rewrite map_app. cbn [map]. rewrite Hid.
        apply NoDup_app; repeat split; auto.
        -- repeat constructor. simpl. tauto.
        -- intros x Hx [<- | []]. apply in_map_iff in Hx as (y & Hy & Hiny).
           rewrite Forall_forall in Hlt. specialize (Hlt y Hiny). lia.
      * apply Forall_app. split.
        -- eapply Forall_impl; [|exact Hlt]. cbv beta. intros; lia.
        -- repeat constructor. lia.
      * apply in_or_app. now left.
  - destruct (updateLeaveStatus_shape now p st by_ d)
      as [-> | (l0 & st' & who & Hin0 & Hid0 & Hst0 & Hs & Hl)].
    + now repeat split.
    + assert (Hkeep : forall x, id (if id x =? p then set_status st' who now x
                                    else x) = id x)
        by (intros x; now destruct (id x =? p)).
      unfold leaves_keyed. rewrite Hl, Hs. repeat split.
      * now rewrite (map_key_preserved id).
      * rewrite Forall_forall in *. intros x Hx.
        apply in_map_iff in Hx as (y & <- & Hy). rewrite Hkeep. auto.
      * apply in_map_iff. exists l. split; [|assumption].
        destruct (id l =? p) eqn:E; [|reflexivity].
        apply Z.eqb_eq in E. exfalso. apply Hst.
        rewrite (key_injective id (leaves d) l l0); auto. congruence.
  - destruct (deleteLeave_shape p d)
      as [-> | (l0 & Hin0 & Hid0 & Hst0 & Hs & Hl)].
    + now repeat split.
    + unfold leaves_keyed. rewrite Hl, Hs. repeat split.
      * clear -Hnd. induction (leaves d) as [|a ls IH]; simpl; [constructor|].
        inversion Hnd as [|? ? Hnotin Hnd']; subst.
        destruct (negb (id a =? p)); simpl; auto.
        constructor; auto.
        intros Hx. apply Hnotin. apply in_map_iff in Hx as (y & Hy & Hiny).
        apply filter_In in Hiny as [Hiny _]. apply in_map_iff. eauto.
      * rewrite Forall_forall in *. intros x Hx.
        apply filter_In in Hx as [Hx _]. auto.
      * apply filter_In. split; [assumption|].
        destruct (id l =? p) eqn:E; [|reflexivity].
        apply Z.eqb_eq in E. exfalso. apply Hst.
        rewrite (key_injective id (leaves d) l l0); auto. congruence.
Qed.

(** X23: whatever the local time of the server, no sequence of create,
    status and delete requests changes or removes a leave that is APPROVED
    or REJECTED. *)
Lemma terminal_leaves_are_kept
  (tz : zone) (rs : list request) (d : db) (l : leave) :
  leaves_keyed d ->
  In l (leaves d) -> status l <> "PENDING" ->
  In l (leaves (serve_all tz rs d)).
Proof.
  unfold serve_all. revert d.
  induction rs as [|r rs IH]; intros d Hk Hin Hst; simpl; [assumption|].
  destruct (serve_keeps_terminal tz r d l Hk Hin Hst) as [Hk' Hin'].
  now apply IH.
Qed.

(** Deleting a leave that is not pending is answered with InvalidState
    and nothing is removed. *)
Lemma deleteLeave_not_pending (d : db) (l : leave) :
  NoDup (map id (leaves d)) -> In l (leaves d) -> status l <> "PENDING" ->
  deleteLeave (id l) d = (inr InvalidState, d).
Proof.
  intros Hnd Hin Hst. unfold deleteLeave.
  rewrite select_leave_unique by assumption.
  apply String.eqb_neq in Hst. now rewrite Hst.
Qed.

(** Deleting a pending leave removes its row and its document. *)
Example deleteLeave_pending_removes_document :
  let d := mkDb [Sample.ann]
                [mkLeave 1 "EMP1" "CL" 100 102 3 "family trip" "PENDING"
                         None None (Some "uploads/leave_docs/plan.pdf")]
                2 ["uploads/leave_docs/plan.pdf"] in
  deleteLeave 1 d = (inl tt, mkDb [Sample.ann] [] 2 []).
Proof. reflexivity. Qed.

(** C7, the code on the approved leave 2 of the sample office: a request
    to reject it is answered with the internal error of status 500, not
    with InvalidTransition, because the statement that reads the leave is
    malformed whenever the requested status is REJECTED (a pending leave
    cannot be rejected either); a request to approve it is answered with
    InvalidTransition and deleting it with InvalidState, and none of the
    three changes the database. *)
Theorem updateLeaveStatus_reject_answers_internal_error :
  status Sample.cure = "APPROVED"
  /\ updateLeaveStatus 95 2 (Some "REJECTED") (Some "ADMIN1") Sample.office
     = (inr InternalError, Sample.office)
  /\ http_status InternalError = 500
  /\ updateLeaveStatus 95 2 (Some "APPROVED") (Some "ADMIN1") Sample.office
     = (inr InvalidTransition, Sample.office)
  /\ deleteLeave 2 Sample.office = (inr InvalidState, Sample.office)
  /\ status Sample.trip = "PENDING"
  /\ updateLeaveStatus 95 1 (Some "REJECTED") (Some "ADMIN1") Sample.office
     = (inr InternalError, Sample.office).
Proof. repeat split; reflexivity. Qed.

(** * Further properties of the validation functions *)

Lemma upper_of_lower_char (c : ascii) : upper_char (lower_char c) = upper_char c.
Proof. destruct c as [[] [] [] [] [] [] [] []]; reflexivity. Qed.

Lemma upper_of_upper_char (c : ascii) : upper_char (upper_char c) = upper_char c.
Proof. destruct c as [[] [] [] [] [] [] [] []]; reflexivity. Qed.

Lemma is_whitespace_upper (c : ascii) :
  is_whitespace (upper_char c) = is_whitespace c.
Proof. destruct c as [[] [] [] [] [] [] [] []]; reflexivity. Qed.

Lemma map_chars_compose (f g : ascii -> ascii) (s : string) :
  map_chars f (map_chars g s) = map_chars (fun c => f (g c)) s.
Proof. induction s as [|c r IH]; simpl; [reflexivity|now rewrite IH]. Qed.

Lemma map_chars_ext (f g : ascii -> ascii) (s : string) :
  (forall c, f c = g c) -> map_chars f s = map_chars g s.
Proof.
  intros H. induction s as [|c r IH]; simpl; [reflexivity|now rewrite H, IH].
Qed.

Lemma toUpperCase_trimStart (s : string) :
  toUpperCase (trimStart s) = trimStart (toUpperCase s).
Proof.
  unfold toUpperCase. induction s as [|c r IH]; [reflexivity|].
  cbn [trimStart map_chars]. rewrite is_whitespace_upper.
  now destruct (is_whitespace c).
Qed.

Lemma toUpperCase_trimEnd (s : string) :
  toUpperCase (trimEnd s) = trimEnd (toUpperCase s).
Proof.
  unfold toUpperCase. induction s as [|c r IH]; [reflexivity|].
  cbn [trimEnd map_chars]. rewrite <- IH, is_whitespace_upper.
  destruct (trimEnd r); cbn [map_chars]; [|reflexivity].
  now destruct (is_whitespace c).
Qed.

Lemma toUpperCase_trim (s : string) : toUpperCase (trim s) = trim (toUpperCase s).
Proof. unfold trim. now rewrite toUpperCase_trimEnd, toUpperCase_trimStart. Qed.

Lemma trimEnd_cons (c : ascii) (r : string) :
  is_whitespace c = false -> trimEnd (String c r) = String c (trimEnd r).
Proof.
  intros W. cbn [trimEnd]. destruct (trimEnd r); [now rewrite W|reflexivity].
Qed.

Lemma trimStart_head (s : string) :
  trimStart s = EmptyString
  \/ exists c r, trimStart s = String c r /\ is_whitespace c = false.
Proof.
  induction s as [|c r IH]; [now left|].
  cbn [trimStart]. destruct (is_whitespace c) eqn:W; [exact IH|].
  right. now exists c, r.
Qed.

Lemma trim_idempotent (s : string) : trim (trim s) = trim s.
Proof.
  unfold trim. destruct (trimStart_head s) as [-> | (c & r & -> & W)];
    [reflexivity|].
  rewrite (trimEnd_cons c r W). cbn [trimStart]. rewrite W.
  rewrite (trimEnd_cons c _ W). now rewrite trimEnd_idempotent.
Qed.

Lemma all_whitespace_trimStart (s : string) :
  Regex.all_chars is_whitespace s = true <-> trimStart s = EmptyString.
Proof.
  induction s as [|c r IH]; [now split|].
  cbn [Regex.all_chars trimStart].
  destruct (is_whitespace c); cbn [andb]; [exact IH|].
  split; discriminate.
Qed.

Lemma trim_empty (s : string) :
  String.eqb (trim s) "" = Regex.all_chars is_whitespace s.
Proof.
  unfold trim. destruct (trimStart_head s) as [E | (c & r & E & W)].
  - rewrite E. symmetry. now apply all_whitespace_trimStart.
  - rewrite E, (trimEnd_cons c r W).
    destruct (Regex.all_chars is_whitespace s) eqn:A; [|reflexivity].
    apply all_whitespace_trimStart in A. congruence.
Qed.

(** X1: [normalizeLeaveType] does not depend on the case of the letters
    nor on blanks around the name: the lower-cased, the upper-cased and the
    trimmed text are normalised like the text itself, and the result, when
    there is one, is a fixed point. *)
Theorem normalizeLeaveType_ignores_case_and_blanks (s : string) :
  normalizeLeaveType (Some (toLowerCase s)) = normalizeLeaveType (Some s)
  /\ normalizeLeaveType (Some (toUpperCase s)) = normalizeLeaveType (Some s)
  /\ normalizeLeaveType (Some (trim s)) = normalizeLeaveType (Some s)
  /\ match normalizeLeaveType (Some s) with
     | Some t => normalizeLeaveType (Some t) = Some t
                 /\ validateLeaveType (Some s) = true
     | None => validateLeaveType (Some s) = false
     end.
Proof.
  assert (Hlow : toUpperCase (toLowerCase s) = toUpperCase s).
  { unfold toUpperCase, toLowerCase. rewrite map_chars_compose.
    apply map_chars_ext, upper_of_lower_char. }
  assert (Hup : toUpperCase (toUpperCase s) = toUpperCase s).
  { unfold toUpperCase. rewrite map_chars_compose.
    apply map_chars_ext, upper_of_upper_char. }
  unfold normalizeLeaveType, validateLeaveType. cbn [or_empty].
  rewrite Hlow, Hup, toUpperCase_trim, trim_idempotent.
  repeat split.
  destruct (includes ["CL"; "RH"; "EL"] (trim (toUpperCase s))) eqn:E;
    [|reflexivity].
  split; [|reflexivity].
  unfold includes in E. apply existsb_exists in E as (t & Hin & Heq).
  apply String.eqb_eq in Heq. rewrite Heq.
  destruct Hin as [<- | [<- | [<- | []]]]; reflexivity.
Qed.

(** X2: the day count [calculateLeaveDays] returns depends on the local
    time of the server. Take, at the UTC midnights of the start and of the
    end date, the time elapsed since local midnight. When the two differ
    by less than a day, the count is 1 for a range whose end precedes its
    start; it is end - start + 1, both end days counted, when no more time
    has elapsed at the end than at the start; and it is one less (but at
    least 1) when more has, as after the clocks went forward. Where local
    time is UTC plus a fixed offset, both end days are always counted. *)
Theorem calculateLeaveDays_counts_both_ends (tz : zone) (s e : Z) :
  (Z.abs ((s * msPerDay - tz (s * msPerDay))
          - (e * msPerDay - tz (e * msPerDay))) < msPerDay ->
   calculateLeaveDays tz s e
   = if e <? s then 1
     else if e * msPerDay - tz (e * msPerDay)
             <=? s * msPerDay - tz (s * msPerDay)
          then e - s + 1
          else Z.max 1 (e - s))
  /\ forall offset,
       calculateLeaveDays (fixed_offset offset) s e
       = if s <=? e then e - s + 1 else 1.
Proof.
  split; [intros Hnear|intros offset; apply calculateLeaveDays_fixed_offset].
  unfold calculateLeaveDays. cbv zeta.
  set (a := s * msPerDay - tz (s * msPerDay)) in *.
  set (b := e * msPerDay - tz (e * msPerDay)) in *.
  assert (Hday : 0 < msPerDay) by (unfold msPerDay; lia).
  destruct (b <=? a) eqn:Hba; [apply Z.leb_le in Hba|apply Z.leb_gt in Hba].
  - replace (tz (e * msPerDay) - tz (s * msPerDay))
      with ((e - s) * msPerDay + (a - b)) by (unfold a, b; ring).
    rewrite Z.div_add_l, (Z.div_small (a - b)) by lia.
    destruct (e <? s) eqn:E; [apply Z.ltb_lt in E|apply Z.ltb_ge in E]; lia.
  - replace (tz (e * msPerDay) - tz (s * msPerDay))
      with ((e - s - 1) * msPerDay + (msPerDay + a - b))
      by (unfold a, b; ring).
    rewrite Z.div_add_l, (Z.div_small (msPerDay + a - b)) by lia.
    destruct (e <? s) eqn:E; [apply Z.ltb_lt in E|apply Z.ltb_ge in E]; lia.
Qed.

Lemma calculateLeaveDays_counts_both_ends_witness :
  calculateLeaveDays Sample.new_york 19791 19794 = 3
  /\ calculateLeaveDays (fixed_offset (-18000000)) 19791 19794 = 4.
Proof.
  destruct (calculateLeaveDays_counts_both_ends Sample.new_york 19791 19794)
    as [Hzone Hfixed].
  split; [rewrite Hzone|rewrite Hfixed]; reflexivity.
Defined.



Lemma strip_angle_length (s : string) :
  (String.length (strip_angle s) <= String.length s)%nat.
Proof.
  induction s as [|c r IH]; simpl; [lia|].
  destruct (Ascii.eqb c "<" || Ascii.eqb c ">")%char; simpl; lia.
Qed.

Lemma trimStart_length (s : string) :
  (String.length (trimStart s) <= String.length s)%nat.
Proof.
  induction s as [|c r IH]; simpl; [lia|].
  destruct (is_whitespace c); simpl; lia.
Qed.

Lemma trimEnd_length (s : string) :
  (String.length (trimEnd s) <= String.length s)%nat.
Proof.
  induction s as [|c r IH]; [simpl; lia|].
  cbn [trimEnd]. destruct (trimEnd r) as [|a r'].
  - destruct (is_whitespace c); simpl; lia.
  - simpl in *. lia.
Qed.

(** X4: the text [sanitizeInput] returns holds no angle bracket and is
    no longer than the text it was given; a text without angle brackets
    is only trimmed. *)
Theorem sanitizeInput_removes_angle_brackets (s : string) :
  Regex.all_chars (fun c => negb (Ascii.eqb c "<" || Ascii.eqb c ">"))
                  (sanitizeInput s) = true
  /\ (String.length (sanitizeInput s) <= String.length s)%nat
  /\ (Regex.all_chars (fun c => negb (Ascii.eqb c "<" || Ascii.eqb c ">"))
                      (trim s) = true ->
      sanitizeInput s = trim s).
Proof.
  unfold sanitizeInput. repeat split.
  - induction (trim s) as [|c r IH]; [reflexivity|].
    cbn [strip_angle].
    destruct (Ascii.eqb c "<" || Ascii.eqb c ">")%char eqn:E; [exact IH|].
    cbn [Regex.all_chars]. now rewrite E, IH.
  - pose proof (strip_angle_length (trim s)).
    pose proof (trimEnd_length (trimStart s)).
    pose proof (trimStart_length s). unfold trim in *. lia.
  - induction (trim s) as [|c r IH]; [reflexivity|].
    cbn [Regex.all_chars strip_angle]. intros H.
    apply andb_true_iff in H as [Hc Hr]. apply negb_true_iff in Hc.
    rewrite Hc. now rewrite IH.
Qed.

(** X5: of an integer number, NaN, [null], [undefined] or a boolean,
    [normalizeLeaveBalance] returns an integer from 0 up to below 10^21,
    so that normalising twice is normalising once. It maps [null],
    [undefined], booleans, NaN and negative integers to 0, returns an
    integer from 0 up to below 10^21 unchanged, and of an integer from
    10^21 on, whose text has an exponent, it returns one digit from 1 to
    9. *)
Theorem normalizeLeaveBalance_clamps_below (v : jsval) :
  0 <= normalizeLeaveBalance v < exponent_limit
  /\ normalizeLeaveBalance (JNum (normalizeLeaveBalance v))
     = normalizeLeaveBalance v
  /\ match v with
     | JNum z =>
         if z <? 0 then normalizeLeaveBalance v = 0
         else if z <? exponent_limit then normalizeLeaveBalance v = z
         else 1 <= normalizeLeaveBalance v <= 9
     | _ => normalizeLeaveBalance v = 0
     end.
Proof.
  assert (Hcases : match v with
                   | JNum z =>
                       if z <? 0 then normalizeLeaveBalance v = 0
                       else if z <? exponent_limit
                            then normalizeLeaveBalance v = z
                            else 1 <= normalizeLeaveBalance v <= 9
                   | _ => normalizeLeaveBalance v = 0
                   end).
  { destruct v as [| |b|z|]; try reflexivity.
    destruct (z <? 0) eqn:Hneg; [apply Z.ltb_lt in Hneg|apply Z.ltb_ge in Hneg].
    - unfold normalizeLeaveBalance, parseInt.
      destruct (Z.abs z <? exponent_limit); [lia|].
      rewrite Z.sgn_neg by lia.
      pose proof (exponent_digit_range (Z.abs z) ltac:(lia)). lia.
    - destruct (z <? exponent_limit) eqn:Hbig;
        [apply Z.ltb_lt in Hbig|apply Z.ltb_ge in Hbig].
      + now apply normalizeLeaveBalance_fixed.
      + now apply normalizeLeaveBalance_exponent_form. }
  assert (Hrange : 0 <= normalizeLeaveBalance v < exponent_limit).
  { split; [apply normalizeLeaveBalance_nonneg|].
    destruct v as [| |b|z|]; try (rewrite Hcases; reflexivity).
    destruct (z <? 0); [rewrite Hcases; reflexivity|].
    destruct (z <? exponent_limit) eqn:Hbig.
    - apply Z.ltb_lt in Hbig. now rewrite Hcases.
    - unfold exponent_limit. lia. }
  split; [exact Hrange|]. split; [now apply normalizeLeaveBalance_fixed|].
  exact Hcases.
Qed.

(** 12 stays 12; 1e21 and 3e21 are written with an exponent and give 1
    and 3; the double nearest to 10^23, which is below it, is written
    1e+23 and gives 1. *)
Example normalizeLeaveBalance_samples :
  normalizeLeaveBalance (JNum 12) = 12
  /\ normalizeLeaveBalance (JNum exponent_limit) = 1
  /\ normalizeLeaveBalance (JNum (3 * exponent_limit)) = 3
  /\ normalizeLeaveBalance (JNum 99999999999999991611392) = 1
  /\ normalizeLeaveBalance (JNum (-4)) = 0
  /\ normalizeLeaveBalance (JNum (- exponent_limit)) = 0
  /\ normalizeLeaveBalance JNaN = 0.
Proof. repeat split; vm_compute; reflexivity. Qed.

(** X6: [validateEmployeeId] accepts exactly the identifiers that are
    present and hold a character that is not a blank. *)
Theorem validateEmployeeId_accepts_exactly (employeeId : option string) :
  validateEmployeeId employeeId = true
  <-> exists s, employeeId = Some s /\ Regex.all_chars is_whitespace s = false.
Proof.
  unfold validateEmployeeId. destruct employeeId as [s|].
  - rewrite trim_empty. split.
    + intros H. apply andb_true_iff in H as [_ H].
      apply negb_true_iff in H. now exists s.
    + intros (s' & [= <-] & H). rewrite H.
      destruct s; [discriminate|reflexivity].
  - split; [discriminate|]. now intros (s & ? & _).
Qed.

(** ** Regular expressions *)

Lemma append_empty_inv (a b : string) :
  (a ++ b)%string = EmptyString -> a = EmptyString /\ b = EmptyString.
Proof. destruct a; simpl; [auto|discriminate]. Qed.

Lemma nullable_matches (r : Regex.regex) :
  Regex.nullable r = true <-> Regex.Matches r EmptyString.
Proof.
  split.
  - induction r; simpl; intros H; try discriminate.
    + constructor.
    + apply andb_true_iff in H as [H1 H2].
      change EmptyString with (EmptyString ++ EmptyString)%string.
      constructor; auto.
    + apply orb_true_iff in H as [H | H];
        [apply Regex.MAltL | apply Regex.MAltR]; auto.
    + constructor.
  - intros H. remember EmptyString as w eqn:E.
    induction H; simpl; try reflexivity; try discriminate.
    + apply append_empty_inv in E as [-> ->].
      now rewrite IHMatches1, IHMatches2.
    + now rewrite IHMatches.
    + rewrite IHMatches by assumption. apply orb_true_r.
Qed.

Lemma derive_matches (c : ascii) (r : Regex.regex) (s : string) :
  Regex.Matches (Regex.derive c r) s <-> Regex.Matches r (String c s).
Proof.
  split.
  - revert s. induction r; intros s H; cbn [Regex.derive] in H.
    + inversion H.
    + inversion H.
    + destruct (p c) eqn:E; inversion H; subst. now constructor.
    + inversion H as [| | | ? ? ? H1 | ? ? ? H1 | |]; subst.
      * inversion H1; subst.
        change (String c (a ++ b)) with (String c a ++ b)%string.
        constructor; auto.
      * destruct (Regex.nullable r1) eqn:N; [|inversion H1].
        change (String c s) with (EmptyString ++ String c s)%string.
        constructor; [now apply nullable_matches|auto].
    + inversion H; subst;
        [apply Regex.MAltL | apply Regex.MAltR]; auto.
    + inversion H; subst.
      change (String c (a ++ b)) with (String c a ++ b)%string.
      constructor; auto.
  - intros H. remember (String c s) as w eqn:E. revert s E.
    induction H; intros w E; cbn [Regex.derive]; try discriminate.
    + injection E as -> <-. rewrite H. constructor.
    + destruct a as [|c0 a'].
      * simpl in E. subst b. apply Regex.MAltR.
        replace (Regex.nullable r) with true
          by (symmetry; now apply nullable_matches).
        now apply IHMatches2.
      * simpl in E. injection E as -> <-.
        apply Regex.MAltL. constructor; auto.
    + apply Regex.MAltL; auto.
    + apply Regex.MAltR; auto.
    + destruct a as [|c0 a'].
      * simpl in E. now apply IHMatches2.
      * simpl in E. injection E as -> <-. constructor; auto.
Qed.

(** The derivative test decides the strings of a pattern. *)
Lemma test_matches (r : Regex.regex) (s : string) :
  Regex.test r s = true <-> Regex.Matches r s.
Proof.
  revert r. induction s as [|c s IH]; intros r; cbn [Regex.test].
  - apply nullable_matches.
  - rewrite IH. apply derive_matches.
Qed.

Lemma matches_cat (r s : Regex.regex) (w : string) :
  Regex.Matches (Regex.Cat r s) w
  <-> exists a b, w = (a ++ b)%string /\ Regex.Matches r a /\ Regex.Matches s b.
Proof.
  split.
  - intros H. inversion H; subst. eauto.
  - intros (a & b & -> & Ha & Hb). now constructor.
Qed.

Lemma matches_class (p : ascii -> bool) (w : string) :
  Regex.Matches (Regex.Class p) w
  <-> exists c, w = String c EmptyString /\ p c = true.
Proof.
  split.
  - intros H. inversion H; subst. eauto.
  - intros (c & -> & Hc). now constructor.
Qed.

Lemma matches_star_class (p : ascii -> bool) (w : string) :
  Regex.Matches (Regex.Star (Regex.Class p)) w <-> Regex.all_chars p w = true.
Proof.
  split.
  - intros H. remember (Regex.Star (Regex.Class p)) as r eqn:E.
    induction H; try discriminate; [reflexivity|].
    injection E as ->. inversion H; subst.
    cbn [append Regex.all_chars]. apply andb_true_iff. split; auto.
  - induction w as [|c w IH]; cbn [Regex.all_chars]; intros H.
    + constructor.
    + apply andb_true_iff in H as [Hc Hw].
      change (String c w) with (String c EmptyString ++ w)%string.
      constructor; [now constructor|auto].
Qed.

Lemma matches_plus_class (p : ascii -> bool) (w : string) :
  Regex.Matches (Regex.Plus (Regex.Class p)) w
  <-> w <> EmptyString /\ Regex.all_chars p w = true.
Proof.
  unfold Regex.Plus. rewrite matches_cat. split.
  - intros (a & b & -> & Ha & Hb).
    apply matches_class in Ha as (c & -> & Hc).
    apply matches_star_class in Hb.
    split; [discriminate|]. cbn [append Regex.all_chars]. now rewrite Hc, Hb.
  - intros [Hne H]. destruct w as [|c w]; [contradiction|].
    cbn [Regex.all_chars] in H. apply andb_true_iff in H as [Hc Hw].
    exists (String c EmptyString), w. repeat split.
    + now constructor.
    + now apply matches_star_class.
Qed.

(** X7: [validateEmail] accepts exactly the texts made of a name, an at
    sign, a host, a dot and an ending, where name, host and ending are not
    empty and hold neither a blank nor an at sign; an absent email is
    refused. *)
Theorem validateEmail_accepts_exactly (s : string) :
  (validateEmail (Some s) = true
   <-> exists name host ending,
         s = (name ++ "@" ++ host ++ "." ++ ending)%string
         /\ name <> EmptyString /\ host <> EmptyString
         /\ ending <> EmptyString
         /\ Regex.all_chars email_char name = true
         /\ Regex.all_chars email_char host = true
         /\ Regex.all_chars email_char ending = true)
  /\ validateEmail None = false.
Proof.
  split; [|reflexivity].
  unfold validateEmail, emailRegex. rewrite test_matches. split.
  - intros H.
    apply matches_cat in H as (name & r1 & -> & Hname & H).
    apply matches_cat in H as (at_ & r2 & -> & Hat & H).
    apply matches_cat in H as (host & r3 & -> & Hhost & H).
    apply matches_cat in H as (dot & ending & -> & Hdot & Hend).
    apply matches_class in Hat as (c1 & -> & Hc1).
    apply matches_class in Hdot as (c2 & -> & Hc2).
    apply Ascii.eqb_eq in Hc1, Hc2. subst c1 c2.
    apply matches_plus_class in Hname as [? ?].
    apply matches_plus_class in Hhost as [? ?].
    apply matches_plus_class in Hend as [? ?].
    exists name, host, ending. repeat split; assumption.
  - intros (name & host & ending & -> & Hn & Hh & He & An & Ah & Ae).
    repeat (apply matches_cat; do 2 eexists; split; [reflexivity|split]).
    + now apply matches_plus_class.
    + apply matches_class. eexists. split; [reflexivity|apply Ascii.eqb_refl].
    + now apply matches_plus_class.
    + apply matches_class. eexists. split; [reflexivity|apply Ascii.eqb_refl].
    + now apply matches_plus_class.
Qed.

Example validateEmail_samples :
  validateEmail (Some "ann@example.org") = true
  /\ validateEmail (Some "ann@example") = false
  /\ validateEmail (Some "ann rao@example.org") = false
  /\ validateEmail (Some "ann@@example.org") = false.
Proof. repeat split; reflexivity. Qed.

(** * Further properties of the Balance Normalizer and the sweep *)

(** X8: whatever statements fail, a run of [normalizeEmployeeBalances]
    leaves the leaves, the sequence and the uploaded files as they were,
    keeps the identifiers, names and emails of all employees in place, and
    keeps every row stored under another identifier unchanged. *)
Theorem normalizeEmployeeBalances_touches_one_employee
  (fs : list bool) (employeeId : string) (d : db) :
  let d' := snd (normalizeEmployeeBalances fs employeeId d) in
  leaves d' = leaves d
  /\ leaves_id_seq d' = leaves_id_seq d
  /\ uploads d' = uploads d
  /\ map (fun e => (employee_id e, full_name e, email e)) (employees d')
     = map (fun e => (employee_id e, full_name e, email e)) (employees d)
  /\ (forall e, In e (employees d) -> employee_id e <> employeeId ->
        In e (employees d')).
Proof.
  cbv zeta. rewrite normalizeEmployeeBalances_outcome.
  destruct (select_employees_exact d employeeId) as [|e0 rest];
    [now repeat split|].
  destruct (any_fault (firstn 5 fs)); [now repeat split|].
  cbv zeta. cbn [snd]. unfold update_balances, with_employees.
  cbn [leaves leaves_id_seq uploads employees]. repeat split.
  - rewrite map_map. apply map_ext. intros e.
    now destruct (String.eqb (employee_id e) employeeId).
  - intros e Hin Hne. apply in_map_iff. exists e. split; [|assumption].
    apply String.eqb_neq in Hne. now rewrite Hne.
Qed.

Lemma listed_self (rows : list employee) (e : employee) :
  In e rows -> listed rows e = true.
Proof.
  intros H. unfold listed. apply existsb_exists.
  exists e. split; [assumption|apply String.eqb_refl].
Qed.

(** Over unique identifiers, a row of the table is listed by identifier
    among the selected rows iff it is selected itself. *)
Lemma listed_filter (c : employee -> bool) (es : list employee) (e : employee) :
  NoDup (map employee_id es) -> In e es ->
  listed (filter c es) e = c e.
Proof.
  intros Hnd Hin. destruct (c e) eqn:E.
  - apply listed_self. apply filter_In. now split.
  - destruct (listed (filter c es) e) eqn:L; [|reflexivity].
    unfold listed in L. apply existsb_exists in L as (r & Hr & Hid).
    apply filter_In in Hr as [Hr Hc]. apply String.eqb_eq in Hid.
    assert (r = e) by (eapply key_injective; eauto). congruence.
Qed.

Lemma normalize_row_fixed (e : employee) :
  normalize_row (normalize_row e) = normalize_row e.
Proof.
  pose proof (normalizedBalances_range e) as (Hc & Hr & He).
  unfold normalize_row. now rewrite normalizedBalances_fixed by assumption.
Qed.

(** X9: over unique identifiers, one sweep rewrites exactly the rows
    that have a negative balance, a casual balance above 30, a restricted
    balance above 15 or an earned balance above 30, each to its normalised
    form; all other rows and the other tables stay as they are. *)
Theorem checkDataIntegrity_rewrites_exactly (d : db) :
  NoDup (map employee_id (employees d)) ->
  let selected := fun e =>
    sql_lt (cl_balance e) 0 || sql_lt (rh_balance e) 0 || sql_lt (el_balance e) 0
    || (sql_gt (cl_balance e) 30 || sql_gt (rh_balance e) 15
        || sql_gt (el_balance e) 30) in
  checkDataIntegrity d
  = with_employees d
      (map (fun e => if selected e then normalize_row e else e) (employees d)).
Proof.
  intros Hnd selected. unfold checkDataIntegrity.
  rewrite normalize_each_closed; try assumption.
  2:{ intros r Hr. unfold select_negative_balances in Hr.
      apply filter_In in Hr as [Hr _]. now apply in_map. }
  set (neg := select_negative_balances d).
  set (d1 := with_employees d _).
  assert (Hids : map employee_id (employees d1) = map employee_id (employees d)).
  { unfold d1, with_employees. cbn [employees].
    apply (map_key_preserved employee_id). intros x.
    now destruct (listed neg x). }
  assert (Hnd1 : NoDup (map employee_id (employees d1))) by now rewrite Hids.
  rewrite normalize_each_closed; try assumption.
  2:{ intros r Hr. unfold select_high_balances in Hr.
      apply filter_In in Hr as [Hr _]. now apply in_map. }
  cbn [snd]. unfold with_employees. cbn [leaves leaves_id_seq uploads].
  f_equal. unfold d1 at 2. unfold with_employees. cbn [employees].
  rewrite map_map. apply map_ext_in. intros e Hin.
  set (e1 := if listed neg e then normalize_row e else e).
  assert (Hin1 : In e1 (employees d1)).
  { unfold d1, with_employees. cbn [employees]. apply in_map_iff. now exists e. }
  unfold select_high_balances.
  rewrite (listed_filter _ (employees d1) e1 Hnd1 Hin1).
  unfold e1, neg, select_negative_balances.
  rewrite (listed_filter _ (employees d) e Hnd Hin).
  unfold selected.
  destruct (sql_lt (cl_balance e) 0 || sql_lt (rh_balance e) 0
            || sql_lt (el_balance e) 0) eqn:N; cbn [orb].
  - destruct (normalize_row_in_range e) as [_ ->]. reflexivity.
  - destruct (sql_gt (cl_balance e) 30 || sql_gt (rh_balance e) 15
              || sql_gt (el_balance e) 30); reflexivity.
Qed.

Lemma checkDataIntegrity_rewrites_exactly_witness :
  map (fun e => (cl_balance e, rh_balance e, el_balance e))
      (employees (checkDataIntegrity Sample.payroll))
  = [(Some 0, Some 0, Some 18); (Some 30, Some 2, Some 18)].
Proof.
  rewrite (checkDataIntegrity_rewrites_exactly Sample.payroll).
  - reflexivity.
  - simpl. repeat constructor; simpl; intuition discriminate.
Defined.

(** X10: over unique identifiers the sweep is idempotent: a second
    sweep right after the first changes nothing. *)
Theorem checkDataIntegrity_idempotent (d : db) :
  NoDup (map employee_id (employees d)) ->
  checkDataIntegrity (checkDataIntegrity d) = checkDataIntegrity d.
Proof.
  intros Hnd. destruct (checkDataIntegrity_result d Hnd) as [Hneg Hhigh].
  unfold checkDataIntegrity at 1. rewrite Hneg. cbn [normalize_each].
  now rewrite Hhigh.
Qed.

Lemma checkDataIntegrity_idempotent_witness :
  checkDataIntegrity (checkDataIntegrity Sample.payroll)
  = checkDataIntegrity Sample.payroll.
Proof.
  apply checkDataIntegrity_idempotent.
  simpl. repeat constructor; simpl; intuition discriminate.
Defined.

Import Reports.

(** Normalising rows changes no leave, no file, and no identifier. *)
Lemma normalize_each_frame (rows : list employee) (d : db) :
  let d' := snd (normalize_each rows d) in
  leaves d' = leaves d
  /\ uploads d' = uploads d
  /\ leaves_id_seq d' = leaves_id_seq d
  /\ map employee_id (employees d') = map employee_id (employees d).
Proof.
  cbv zeta. revert d. induction rows as [|r rows IH]; intros d;
    [now repeat split|].
  cbn [normalize_each]. rewrite normalizeEmployeeBalances_reliable.
  destruct (select_employees_exact d (employee_id r)) as [|e0 rest];
    [now repeat split|].
  cbv zeta. destruct (IH (update_balances
                            (n_cl_balance (normalizedBalances e0))
                            (n_rh_balance (normalizedBalances e0))
                            (n_el_balance (normalizedBalances e0))
                            (employee_id r) d)) as (Hl & Hu & Hs & Hi).
  rewrite Hl, Hu, Hs, Hi. unfold update_balances, with_employees.
  cbn [leaves uploads leaves_id_seq employees]. repeat split.
  apply (map_key_preserved employee_id). intros x.
  now destruct (String.eqb (employee_id x) (employee_id r)).
Qed.

Lemma checkDataIntegrity_frame (d : db) :
  leaves (checkDataIntegrity d) = leaves d
  /\ map employee_id (employees (checkDataIntegrity d))
     = map employee_id (employees d).
Proof.
  unfold checkDataIntegrity.
  destruct (normalize_each_frame (select_negative_balances d) d)
    as (Hl & _ & _ & Hi).
  destruct (normalize_each (select_negative_balances d) d) as [[[]|err] d1];
    cbn [snd] in *; [|now split].
  destruct (normalize_each_frame (select_high_balances d1) d1)
    as (Hl' & _ & _ & Hi').
  split; congruence.
Qed.

(** X11: over unique identifiers, the system health report computed
    right after a sweep counts no negative and no high balance and does
    not ask for attention, while its totals of employees and leaves are
    those of before the sweep. *)
Theorem systemHealth_after_sweep (d : db) :
  NoDup (map employee_id (employees d)) ->
  let h := systemHealth (checkDataIntegrity d) in
  negativeBalances h = 0 /\ highBalances h = 0 /\ needsAttention h = false
  /\ totalEmployees h = totalEmployees (systemHealth d)
  /\ totalLeaves h = totalLeaves (systemHealth d).
Proof.
  intros Hnd. cbv zeta.
  destruct (checkDataIntegrity_result d Hnd) as [Hneg Hhigh].
  destruct (checkDataIntegrity_frame d) as [Hl Hi].
  unfold systemHealth. cbv zeta.
  cbn [negativeBalances highBalances needsAttention totalEmployees totalLeaves].
  rewrite Hneg, Hhigh, Hl. repeat split.
  rewrite <- (length_map employee_id (employees (checkDataIntegrity d))), Hi.
  now rewrite length_map.
Qed.

Lemma systemHealth_after_sweep_witness :
  needsAttention (systemHealth Sample.payroll) = true
  /\ needsAttention (systemHealth (checkDataIntegrity Sample.payroll)) = false.
Proof.
  split; [reflexivity|].
  apply (systemHealth_after_sweep Sample.payroll).
  simpl. repeat constructor; simpl; intuition discriminate.
Defined.

(** * Further properties of the employee routes *)

Import EmployeeAdmin.

Lemma normalizedBalances_normalize_row (e : employee) :
  normalizedBalances (normalize_row e) = normalizedBalances e.
Proof.
  pose proof (normalizedBalances_range e) as (Hc & Hr & He).
  unfold normalize_row. rewrite normalizedBalances_fixed by assumption.
  now destruct (normalizedBalances e).
Qed.

(** The bulk loop over rows that are all in the table, whose identifiers
    are unique: every call succeeds, and the database is the one the plain
    loop leaves. *)
Lemma fix_each_closed (rows : list employee) (d : db) :
  NoDup (map employee_id (employees d)) ->
  (forall r, In r rows ->
     exists e, In e (employees d) /\ employee_id e = employee_id r
               /\ normalizedBalances e = normalizedBalances r) ->
  fix_each rows d
  = (map (fun r => mkFixed (employee_id r) (full_name r) (normalizedBalances r))
         rows,
     [], snd (normalize_each rows d)).
Proof.
  revert d. induction rows as [|r rows IH]; intros d Hnd Hrows; [reflexivity|].
  destruct (Hrows r (or_introl eq_refl)) as (e0 & Hin0 & Hid0 & Hnb0).
  cbn [fix_each normalize_each map].
  rewrite normalizeEmployeeBalances_reliable.
  rewrite <- Hid0, select_employees_exact_unique by assumption.
  cbv beta iota zeta.
  set (d1 := update_balances _ _ _ _ d).
  assert (Hids : map employee_id (employees d1) = map employee_id (employees d)).
  { unfold d1, update_balances, with_employees. cbn [employees].
    apply (map_key_preserved employee_id). intros x.
    now destruct (String.eqb (employee_id x) (employee_id e0)). }
  rewrite IH.
  - now rewrite Hnb0, Hid0.
  - now rewrite Hids.
  - intros r' Hr'. destruct (Hrows r' (or_intror Hr')) as (e' & Hin' & Hid' & Hnb').
    exists (if String.eqb (employee_id e') (employee_id e0)
            then normalize_row e' else e').
    split; [|split].
    + unfold d1, update_balances, with_employees. cbn [employees].
      apply in_map_iff. exists e'. split; [|assumption].
      destruct (String.eqb (employee_id e') (employee_id e0)) eqn:E;
        [|reflexivity].
      apply String.eqb_eq in E.
      assert (e' = e0) by (eapply key_injective; eauto). now subst.
    + now destruct (String.eqb (employee_id e') (employee_id e0)).
    + destruct (String.eqb (employee_id e') (employee_id e0)); [|assumption].
      now rewrite normalizedBalances_normalize_row.
Qed.

(** X12: over unique identifiers, the bulk fix reports one result per
    employee, in table order, holding the employee's normalised balances,
    reports no error, and leaves every row of the table in its normalised
    form. *)
Theorem fixAllBalances_normalises_every_row (d : db) :
  NoDup (map employee_id (employees d)) ->
  fixAllBalances d
  = (map (fun e => mkFixed (employee_id e) (full_name e) (normalizedBalances e))
         (employees d),
     [],
     with_employees d (map normalize_row (employees d))).
Proof.
  intros Hnd. unfold fixAllBalances.
  rewrite fix_each_closed; try assumption.
  2:{ intros r Hr. now exists r. }
  rewrite normalize_each_closed; try assumption.
  2:{ intros r Hr. now apply in_map. }
  cbn [snd]. do 2 f_equal. apply map_ext_in. intros e He.
  now rewrite listed_self.
Qed.

Lemma fixAllBalances_normalises_every_row_witness :
  let '(results, errors, d') := fixAllBalances Sample.payroll in
  map fixed_balances results = [mkNormalized 0 0 18; mkNormalized 30 2 18]
  /\ errors = []
  /\ map (fun e => (cl_balance e, rh_balance e, el_balance e)) (employees d')
     = [(Some 0, Some 0, Some 18); (Some 30, Some 2, Some 18)].
Proof.
  rewrite (fixAllBalances_normalises_every_row Sample.payroll).
  - repeat split.
  - simpl. repeat constructor; simpl; intuition discriminate.
Defined.

(** X13: [GET /api/employees/:employeeId] answers alike for two
    identifiers that differ only in the case of their letters, and the
    employee it returns shows balances that are numbers and not
    negative. *)
Theorem getEmployee_ignores_case_and_hides_negatives (a b : string) (d : db) :
  toLowerCase a = toLowerCase b ->
  Employees.getEmployee a d = Employees.getEmployee b d
  /\ forall e, Employees.getEmployee a d = inl e ->
       exists cl rh el,
         cl_balance e = Some cl /\ rh_balance e = Some rh
         /\ el_balance e = Some el /\ 0 <= cl /\ 0 <= rh /\ 0 <= el.
Proof.
  intros Hab. split; [now apply getEmployee_case_insensitive|].
  intros e. unfold Employees.getEmployee.
  destruct (negb (validateEmployeeId (Some a))); [discriminate|].
  destruct (select_employees_lower d (trim a)) as [|e0 rest]; [discriminate|].
  intros [= <-]. cbn [cl_balance rh_balance el_balance].
  do 3 eexists. repeat split; apply normalizeLeaveBalance_nonneg.
Qed.

Lemma getEmployee_ignores_case_and_hides_negatives_witness :
  Employees.getEmployee "emp3" Sample.payroll
  = Employees.getEmployee "EMP3" Sample.payroll
  /\ Employees.getEmployee "emp3" Sample.payroll
     = inl (mkEmployee "EMP3" "Cara Sen" "cara@example.org"
                       (Some 0) (Some 0) (Some 50)).
Proof.
  split; [|reflexivity].
  now apply (getEmployee_ignores_case_and_hides_negatives "emp3" "EMP3").
Defined.

Lemma filter_nil_all {A} (c : A -> bool) (l : list A) :
  filter c l = [] <-> forall x, In x l -> c x = false.
Proof.
  induction l as [|a l IH]; simpl; [tauto|].
  destruct (c a) eqn:E; split.
  - discriminate.
  - intros H. specialize (H a (or_introl eq_refl)). congruence.
  - intros H x [<- | Hx]; [assumption|]. now apply IH.
  - intros H. apply IH. intros x Hx. apply H. now right.
Qed.

Lemma filter_all {A} (c : A -> bool) (l : list A) :
  (forall x, In x l -> c x = true) -> filter c l = l.
Proof.
  induction l as [|a l IH]; simpl; intros H; [reflexivity|].
  rewrite (H a) by now left. f_equal. apply IH. intros x Hx. apply H. now right.
Qed.





Import Invariants.

(** X16: [DELETE /api/employees/:employeeId] keeps the foreign key of
    the leaves. When it succeeds, an employee matched the identifier up to
    letter case, no employee matches it afterwards, exactly the other
    employees remain, every remaining leave was there before, and no
    uploaded file is removed; when it refuses, nothing has changed. *)
Theorem deleteEmployee_cascades (employeeId : string) (d : db) :
  references_ok d ->
  let '(r, d') := deleteEmployee employeeId d in
  references_ok d'
  /\ match r with
     | inl _ =>
         select_employees_lower d (trim employeeId) <> []
         /\ select_employees_lower d' (trim employeeId) = []
         /\ (forall e, In e (employees d') <->
               In e (employees d)
               /\ toLowerCase (employee_id e) <> toLowerCase (trim employeeId))
         /\ (forall l, In l (leaves d') -> In l (leaves d))
         /\ uploads d' = uploads d
     | inr _ => d' = d
     end.
Proof.
  intros Hfk. unfold deleteEmployee.
  destruct (negb (validateEmployeeId (Some employeeId))); [now split|].
  unfold delete_employees. cbv zeta.
  set (hit := fun e => String.eqb (LOWER (employee_id e)) (LOWER (trim employeeId))).
  destruct (filter hit (employees d)) as [|g gs] eqn:Hgone; cbv beta iota.
  - assert (Hnone : forall x, In x (employees d) -> hit x = false)
      by now apply filter_nil_all.
    assert (Hsame : forall c1 c2,
              (forall x, In x (employees d) -> c1 x = true) ->
              (forall x, In x (leaves d) -> c2 x = true) ->
              mkDb (filter c1 (employees d)) (filter c2 (leaves d))
                   (leaves_id_seq d) (uploads d) = d).
    { intros c1 c2 H1 H2. rewrite !filter_all by assumption. now destruct d. }
    rewrite Hsame; [now split| |reflexivity].
    intros x Hx. apply negb_true_iff. now apply Hnone.
  - rewrite <- Hgone. split; [|split; [|split; [|split; [|split]]]].
    + intros l Hl. cbn [leaves employees] in *.
      apply filter_In in Hl as [Hl Hkeep]. apply negb_true_iff in Hkeep.
      destruct (Hfk l Hl) as (e & He & Hid). exists e. split; [|assumption].
      apply filter_In. split; [assumption|].
      change (negb (hit e) = true).
      destruct (hit e) eqn:Hh; [|reflexivity].
      assert (Ht : existsb (fun e0 => String.eqb (employee_id e0)
                                        (leave_employee_id l))
                           (filter hit (employees d)) = true).
      { apply existsb_exists. exists e. split.
        - apply filter_In. now split.
        - now apply String.eqb_eq. }
      congruence.
    + unfold select_employees_lower. fold hit. rewrite Hgone. discriminate.
    + unfold select_employees_lower. cbn [employees]. fold hit.
      apply filter_nil_all. intros x Hx.
      apply filter_In in Hx as [_ Hx]. now apply negb_true_iff in Hx.
    + intros e. cbn [employees]. rewrite filter_In. unfold LOWER.
      rewrite negb_true_iff, String.eqb_neq. tauto.
    + cbn [leaves]. intros l Hl. apply filter_In in Hl. tauto.
    + reflexivity.
Qed.

Lemma deleteEmployee_cascades_witness :
  let '(r, d') := deleteEmployee " emp2" Sample.office in
  r = inl tt
  /\ map employee_id (employees d') = ["EMP1"]
  /\ map id (leaves d') = [1]
  /\ references_ok d'.
Proof.
  assert (Hfk : references_ok Sample.office).
  { intros l [<- | [<- | []]];
      [exists Sample.ann | exists Sample.bob]; simpl; auto. }
  pose proof (deleteEmployee_cascades " emp2" Sample.office Hfk) as H.
  destruct (deleteEmployee " emp2" Sample.office) as [r d'] eqn:E.
  vm_compute in E. injection E as <- <-.
  destruct H as [H _]. repeat split. exact H.
Defined.


Example updateEmployee_casual_patch :
  fst (updateEmployee "emp1" Sample.casual_patch Sample.office)
  = inl (Some (mkEmployee "EMP1" "Ann Rao" "ann@example.org"
                          (Some 0) (Some 15) (Some 25)))
  /\ updateEmployee "EMP1"
       (mkPatch None None None None JUndefined JUndefined JUndefined None)
       Sample.office
     = (inr (Invalid "No fields to update"), Sample.office).
Proof. split; reflexivity. Qed.

(** * Further properties of the leave routes *)

(** What a created answer of the handler tells about the checks that
    were passed. *)
Lemma createLeave_handler_created_facts
  (tz : zone) (now : Z) (body : create_body) (file : option string)
  (d d' : db) (row : leave) :
  createLeave_handler tz now body file d = (inl row, d') ->
  exists s e,
    validateDateRange tz now (Day s) (Day e) = true
    /\ start_date row = s /\ end_date row = e
    /\ days row = calculateLeaveDays tz s e
    /\ status row = "PENDING"
    /\ select_overlapping d (leave_employee_id row) s e = []
    /\ existsb (fun x => String.eqb (employee_id x) (leave_employee_id row))
               (employees d) = true
    /\ id row = leaves_id_seq d
    /\ d' = mkDb (employees d) (leaves d ++ [row]) (leaves_id_seq d + 1)
                 (uploads d).
Proof.
  unfold createLeave_handler. intros H.
  repeat (break_match_in H; try discriminate).
  unfold insert_leave in *.
  repeat match goal with
         | Hi : context [match ?x with _ => _ end] |- _ =>
             destruct x eqn:?; try discriminate
         end.
  repeat match goal with
         | Hd : day_of _ = Some _ |- _ => apply day_of_Day in Hd
         | Hv : varchar _ (trim _) = Some _ |- _ => apply varchar_trimmed in Hv
         | Hp : (_, _) = (_, _) |- _ => injection Hp as ? ?; subst
         | Hn : negb _ = false |- _ => apply negb_false_iff in Hn
         | Ha : _ && _ = true |- _ => apply andb_true_iff in Ha as [? ?]
         end.
  repeat match goal with
         | Hs : body_start_date body = Day _ |- _ => rewrite Hs in *; clear Hs
         | He : body_end_date body = Day _ |- _ => rewrite He in *; clear He
         end.
  do 2 eexists. cbn [start_date end_date days status leave_employee_id id].
  repeat split; eauto.
Qed.

Lemma createLeave_created_facts
  (tz : zone) (now : Z) (body : create_body) (file : option string)
  (d d' : db) (row : leave) :
  createLeave tz now body file d = (inl row, d') ->
  exists s e,
    validateDateRange tz now (Day s) (Day e) = true
    /\ start_date row = s /\ end_date row = e
    /\ days row = calculateLeaveDays tz s e
    /\ status row = "PENDING"
    /\ select_overlapping d (leave_employee_id row) s e = []
    /\ existsb (fun x => String.eqb (employee_id x) (leave_employee_id row))
               (employees d) = true
    /\ id row = leaves_id_seq d
    /\ d' = mkDb (employees d) (leaves d ++ [row]) (leaves_id_seq d + 1)
                 (uploads (uploadLeaveDoc file d)).
Proof.
  unfold createLeave. intros H. apply createLeave_handler_created_facts in H.
  destruct file; exact H.
Qed.

(** A refusal of the handler: only the store's refusal can have drawn
    from the sequence, and nothing else has changed. *)
Lemma createLeave_handler_refused
  (tz : zone) (now : Z) (body : create_body) (file : option string)
  (d d' : db) (refused : failure) :
  createLeave_handler tz now body file d = (inr refused, d') ->
  employees d' = employees d /\ leaves d' = leaves d
  /\ uploads d' = uploads d
  /\ leaves_id_seq d <= leaves_id_seq d'
  /\ (refused <> InternalError -> d' = d).
Proof.
  unfold createLeave_handler. intros E.
  repeat (break_match_in E; try discriminate);
    try (injection E as _ <-; repeat split; lia).
  all: unfold insert_leave in *.
  all: repeat match goal with
         | Hi : context [match ?x with _ => _ end] |- _ =>
             destruct x eqn:?; try discriminate
         end.
  all: repeat match goal with
         | Hp : (_, _) = (_, _) |- _ =>
             first [injection Hp as ? ? | injection Hp as ?]; subst
         end.
  all: cbn [employees leaves leaves_id_seq uploads];
    repeat split; try lia; try (intros Hne; now contradiction Hne).
Qed.

Lemma createLeave_refused
  (tz : zone) (now : Z) (body : create_body) (file : option string)
  (d d' : db) (refused : failure) :
  createLeave tz now body file d = (inr refused, d') ->
  employees d' = employees d /\ leaves d' = leaves d
  /\ uploads d' = uploads (uploadLeaveDoc file d)
  /\ leaves_id_seq d <= leaves_id_seq d'
  /\ (refused <> InternalError -> d' = uploadLeaveDoc file d).
Proof.
  unfold createLeave. intros E. apply createLeave_handler_refused in E.
  destruct (uploadLeaveDoc_tables file d) as (He & Hl & Hs).
  now rewrite He, Hl, Hs in E.
Qed.


(** A request that is refused leaves its document behind: no leave
    names the file. *)
Example createLeave_refused_keeps_document :
  createLeave utc (Sample.noon 50) Sample.clashing_request
    (Some "uploads\leave_docs\7-plan.pdf") Sample.office
  = (inr OverlapConflict,
     mkDb (employees Sample.office) (leaves Sample.office)
          (leaves_id_seq Sample.office)
          ("uploads\leave_docs\7-plan.pdf" :: uploads Sample.office)).
Proof. reflexivity. Qed.

(** ** Conditions kept along every sequence of leave requests *)

Lemma updateLeaveStatus_employees
  (now leaveId : Z) (st approved_by : option string) (d : db) :
  let d' := snd (updateLeaveStatus now leaveId st approved_by d) in
  map (fun e => (employee_id e, full_name e, email e)) (employees d')
  = map (fun e => (employee_id e, full_name e, email e)) (employees d)
  /\ uploads d' = uploads d.
Proof.
  cbv zeta. unfold updateLeaveStatus.
  destruct (negb _); [now split|].
  destruct (approver_missing approved_by); [now split|].
  destruct (select_leave_join _ leaveId d) as [[|r rs]|]; try (now split).
  destruct (negb (String.eqb (status (row_leave r)) "PENDING")); [now split|].
  unfold update_leave_status.
  destruct (includes ["PENDING"; "APPROVED"; "REJECTED"] (or_empty st));
    [|now split].
  destruct (varchar 50 (or_empty approved_by)) as [who|]; [|now split].
  destruct (String.eqb (or_empty st) "APPROVED"); [|now split].
  destruct (js_sub _ _) as [newBalance|]; [|now split].
  unfold update_balance_column.
  destruct (set_balance_column _ newBalance
              (mkEmployee "" "" "" None None None)); [|now split].
  destruct (int4 newBalance); [|now split].
  cbn [snd employees uploads with_leaves with_employees].
  split; [|reflexivity].
  rewrite map_map. apply map_ext. intros x.
  destruct (String.eqb (employee_id x) _); [|reflexivity].
  unfold set_balance_column.
  repeat match goal with
         | |- context [if ?c then _ else _] => destruct c
         end; reflexivity.
Qed.

Lemma deleteLeave_employees (leaveId : Z) (d : db) :
  employees (snd (deleteLeave leaveId d)) = employees d.
Proof.
  unfold deleteLeave.
  repeat match goal with
         | |- context [match ?x with _ => _ end] => destruct x eqn:?
         end; reflexivity.
Qed.

(** How one request changes the tables: the identifiers of the employees
    stay, and the leaves stay, or gain one checked row, or have the status
    of the one pending row with the requested id rewritten, or lose the
    one pending row with the requested id. *)
Lemma serve_change (tz : zone) (r : request) (d : db) :
  map employee_id (employees (serve tz r d)) = map employee_id (employees d)
  /\ ((leaves (serve tz r d) = leaves d
       /\ leaves_id_seq d <= leaves_id_seq (serve tz r d))
      \/ (exists row,
            leaves (serve tz r d) = leaves d ++ [row]
            /\ id row = leaves_id_seq d
            /\ leaves_id_seq (serve tz r d) = leaves_id_seq d + 1
            /\ start_date row <= end_date row
            /\ (exists e, In e (employees d)
                          /\ employee_id e = leave_employee_id row)
            /\ forall l, In l (leaves d) ->
                 leave_employee_id l = leave_employee_id row ->
                 status l <> "REJECTED" -> start_date l <= end_date l ->
                 end_date l < start_date row \/ end_date row < start_date l)
      \/ (exists l0 p st' who now,
            In l0 (leaves d) /\ id l0 = p /\ status l0 = "PENDING"
            /\ leaves_id_seq (serve tz r d) = leaves_id_seq d
            /\ leaves (serve tz r d)
               = map (fun x => if id x =? p then set_status st' who now x else x)
                     (leaves d))
      \/ (exists l0 p,
            In l0 (leaves d) /\ id l0 = p /\ status l0 = "PENDING"
            /\ leaves_id_seq (serve tz r d) = leaves_id_seq d
            /\ leaves (serve tz r d)
               = filter (fun x => negb (id x =? p)) (leaves d))).
Proof.
  destruct r as [now body file|now p st by_|p]; cbn [serve].
  - destruct (createLeave tz now body file d) as [[row|refused] d'] eqn:E;
      cbn [snd].
    + apply createLeave_created_facts in E
        as (s & e & Hrange & Hs & He & Hdays & _ & Hov & Hfk & Hid & ->).
      apply validateDateRange_ordered in Hrange as [_ Hse].
      cbn [employees leaves leaves_id_seq]. split; [reflexivity|].
      right; left. exists row. subst s e.
      split; [reflexivity|]. split; [assumption|]. split; [reflexivity|].
      split; [assumption|].
      split.
      { apply existsb_exists in Hfk as (x & Hx & Heq).
        apply String.eqb_eq in Heq. now exists x. }
      intros l Hl Hsame Hst Hord.
      unfold select_overlapping in Hov.
      pose proof (proj1 (filter_nil_all _ _) Hov l Hl) as Hno.
      cbv beta in Hno.
      apply String.eqb_eq in Hsame. apply String.eqb_neq in Hst.
      rewrite Hsame, Hst in Hno. cbn [negb andb] in Hno.
      unfold overlap_condition in Hno.
      rewrite overlap_cases_inclusive in Hno by assumption.
      unfold Spec.inclusive_overlap in Hno.
      apply andb_false_iff in Hno as [Hno | Hno]; apply Z.leb_gt in Hno; lia.
    + apply createLeave_refused in E as (He & Hl & _ & Hs & _).
      rewrite He. split; [reflexivity|]. now left.
  - destruct (updateLeaveStatus_employees now p st by_ d) as [Hemp _].
    cbv zeta in Hemp. split.
    { apply (f_equal (map (fun t => fst (fst t)))) in Hemp.
      now rewrite !map_map in Hemp. }
    destruct (updateLeaveStatus_shape now p st by_ d)
      as [-> | (l0 & st' & who & Hin0 & Hid0 & Hst0 & Hs & Hl)].
    + left. split; [reflexivity|lia].
    + right; right; left. exists l0, p, st', who, now. now repeat split.
  - rewrite deleteLeave_employees. split; [reflexivity|].
    destruct (deleteLeave_shape p d)
      as [-> | (l0 & Hin0 & Hid0 & Hst0 & Hs & Hl)].
    + left. split; [reflexivity|lia].
    + right; right; right. exists l0, p. now repeat split.
Qed.

Lemma serve_keeps_keys (tz : zone) (r : request) (d : db) :
  leaves_keyed d -> leaves_keyed (serve tz r d).
Proof.
  intros [Hnd Hlt]. unfold leaves_keyed.
  destruct (serve_change tz r d)
    as [_ [[Hl Hs] | [(row & Hl & Hid & Hs & _)
                     | [(l0 & p & st' & who & now & _ & _ & _ & Hs & Hl)
                       | (l0 & p & _ & _ & _ & Hs & Hl)]]]];
    rewrite Hl.
  - split; [assumption|].
    eapply Forall_impl; [|exact Hlt]. cbv beta. intros; lia.
  - rewrite Hs. split.
    + rewrite map_app. cbn [map]. rewrite Hid.
      apply NoDup_app; repeat split; auto.
      * repeat constructor. simpl. tauto.
      * intros x Hx [<- | []]. apply in_map_iff in Hx as (y & Hy & Hiny).
        rewrite Forall_forall in Hlt. specialize (Hlt y Hiny). lia.
    + apply Forall_app. split.
      * eapply Forall_impl; [|exact Hlt]. cbv beta. intros; lia.
      * repeat constructor. lia.
  - assert (Hkeep : forall x, id (if id x =? p then set_status st' who now x
                                  else x) = id x)
      by (intros x; now destruct (id x =? p)).
    rewrite Hs. split.
    + now rewrite (map_key_preserved id).
    + rewrite Forall_forall in *. intros x Hx.
      apply in_map_iff in Hx as (y & <- & Hy). rewrite Hkeep. auto.
  - rewrite Hs. split.
    + clear -Hnd. induction (leaves d) as [|a ls IH]; simpl; [constructor|].
      inversion Hnd as [|? ? Hnotin Hnd']; subst.
      destruct (negb (id a =? p)); simpl; auto.
      constructor; auto.
      intros Hx. apply Hnotin. apply in_map_iff in Hx as (y & Hy & Hiny).
      apply filter_In in Hiny as [Hiny _]. apply in_map_iff. eauto.
    + rewrite Forall_forall in *. intros x Hx.
      apply filter_In in Hx as [Hx _]. auto.
Qed.

Lemma serve_keeps_references (tz : zone) (r : request) (d : db) :
  references_ok d -> references_ok (serve tz r d).
Proof.
  intros Hfk.
  destruct (serve_change tz r d) as [Hemp Hcases].
  assert (Hsame : forall l, (exists e, In e (employees d)
                               /\ employee_id e = leave_employee_id l) ->
                    exists e, In e (employees (serve tz r d))
                              /\ employee_id e = leave_employee_id l).
  { intros l (e & He & Hid).
    assert (Hin : In (leave_employee_id l)
                     (map employee_id (employees (serve tz r d)))).
    { rewrite Hemp, <- Hid. now apply in_map. }
    apply in_map_iff in Hin as (e' & He' & Hin'). now exists e'. }
  intros l Hl. apply Hsame.
  destruct Hcases
    as [[Hleaves _] | [(row & Hleaves & _ & _ & _ & Hrow & _)
                      | [(l0 & p & st' & who & now & _ & _ & _ & _ & Hleaves)
                        | (l0 & p & _ & _ & _ & _ & Hleaves)]]];
    rewrite Hleaves in Hl.
  - now apply Hfk.
  - apply in_app_or in Hl as [Hl | [<- | []]]; [now apply Hfk|assumption].
  - apply in_map_iff in Hl as (x & <- & Hx).
    destruct (id x =? p); [|now apply Hfk].
    change (leave_employee_id (set_status st' who now x))
      with (leave_employee_id x). now apply Hfk.
  - apply filter_In in Hl as [Hl _]. now apply Hfk.
Qed.

(** X19: whatever the local time of the server, along every sequence of
    create, status and delete requests the ids of the leaves stay unique
    and below the sequence, and every leave stays stored under the
    identifier of an employee of the table. *)
Theorem leave_requests_keep_keys_and_references
  (tz : zone) (rs : list request) (d : db) :
  leaves_keyed d -> references_ok d ->
  leaves_keyed (serve_all tz rs d) /\ references_ok (serve_all tz rs d).
Proof.
  unfold serve_all. revert d.
  induction rs as [|r rs IH]; intros d Hk Hfk; simpl; [now split|].
  apply IH; [now apply serve_keeps_keys|now apply serve_keeps_references].
Qed.

Lemma sample_office_keyed : leaves_keyed Sample.office.
Proof.
  split; simpl.
  - repeat constructor; simpl; intuition discriminate.
  - repeat constructor; simpl; lia.
Qed.

Lemma sample_office_references : references_ok Sample.office.
Proof.
  intros l [<- | [<- | []]];
    [exists Sample.ann | exists Sample.bob]; simpl; auto.
Qed.

Lemma leave_requests_keep_keys_and_references_witness :
  leaves_keyed (serve_all utc Sample.busy_day Sample.office)
  /\ references_ok (serve_all utc Sample.busy_day Sample.office).
Proof.
  apply leave_requests_keep_keys_and_references.
  - exact sample_office_keyed.
  - exact sample_office_references.
Defined.




(** ** What single requests leave alone *)

(** X21: whatever it answers, [PUT /api/leaves/:leaveId/status] rewrites
    nothing of a leave but its status, approver and approval time, keeps
    every leave with another id unchanged, keeps the identifier, name and
    email of every employee, keeps unchanged every employee under whose
    identifier no leave with the requested id is stored, and touches
    neither the sequence nor the uploaded files. *)
Theorem updateLeaveStatus_rewrites_little
  (now leaveId : Z) (st approved_by : option string) (d : db) :
  let d' := snd (updateLeaveStatus now leaveId st approved_by d) in
  map leave_request (leaves d') = map leave_request (leaves d)
  /\ (forall l, In l (leaves d) -> id l <> leaveId -> In l (leaves d'))
  /\ map (fun e => (employee_id e, full_name e, email e)) (employees d')
     = map (fun e => (employee_id e, full_name e, email e)) (employees d)
  /\ (forall e, In e (employees d) ->
        (forall l, In l (leaves d) -> id l = leaveId ->
           leave_employee_id l <> employee_id e) ->
        In e (employees d'))
  /\ leaves_id_seq d' = leaves_id_seq d
  /\ uploads d' = uploads d.
Proof.
  cbv zeta.
  destruct (updateLeaveStatus_employees now leaveId st approved_by d)
    as [Hemp Hup]. cbv zeta in Hemp, Hup.
  assert (Hleaves :
    map leave_request (leaves (snd (updateLeaveStatus now leaveId st approved_by d)))
    = map leave_request (leaves d)
    /\ (forall l, In l (leaves d) -> id l <> leaveId ->
          In l (leaves (snd (updateLeaveStatus now leaveId st approved_by d))))
    /\ leaves_id_seq (snd (updateLeaveStatus now leaveId st approved_by d))
       = leaves_id_seq d).
  { destruct (updateLeaveStatus_shape now leaveId st approved_by d)
      as [-> | (l0 & st' & who & _ & _ & _ & Hs & Hl)]; [now repeat split|].
    rewrite Hl, Hs. repeat split.
    - rewrite map_map. apply map_ext. intros x. now destruct (id x =? leaveId).
    - intros l Hin Hne. apply in_map_iff. exists l. split; [|assumption].
      apply Z.eqb_neq in Hne. now rewrite Hne. }
  destruct Hleaves as (H1 & H2 & H3).
  repeat split; try assumption.
  intros e He Hother. unfold updateLeaveStatus.
  destruct (negb _); [assumption|].
  destruct (approver_missing approved_by); [assumption|].
  destruct (select_leave_join _ leaveId d) as [[|r rs]|] eqn:Hjoin;
    try assumption.
  apply select_leave_join_first in Hjoin as [Hin Hid].
  destruct (negb (String.eqb (status (row_leave r)) "PENDING")); [assumption|].
  unfold update_leave_status.
  destruct (includes ["PENDING"; "APPROVED"; "REJECTED"] (or_empty st));
    [|assumption].
  destruct (varchar 50 (or_empty approved_by)) as [who|]; [|assumption].
  destruct (String.eqb (or_empty st) "APPROVED"); [|assumption].
  destruct (js_sub _ _) as [newBalance|]; [|assumption].
  unfold update_balance_column.
  destruct (set_balance_column _ newBalance (mkEmployee "" "" "" None None None));
    [|assumption].
  destruct (int4 newBalance); [|assumption].
  cbn [snd employees with_leaves with_employees].
  apply in_map_iff. exists e. split; [|assumption].
  specialize (Hother (row_leave r) Hin Hid).
  rewrite String.eqb_sym. apply String.eqb_neq in Hother. now rewrite Hother.
Qed.



Lemma terminal_leaves_are_kept_witness :
  In Sample.cure (leaves (serve_all utc Sample.busy_day Sample.office)).
Proof.
  apply terminal_leaves_are_kept.
  - exact sample_office_keyed.
  - simpl. auto.
  - discriminate.
Defined.

(** ** Reports *)

Lemma count_where_cons {A} (c : A -> bool) (a : A) (l : list A) :
  count_where c (a :: l) = (if c a then 1 else 0) + count_where c l.
Proof.
  unfold count_where. cbn [filter]. destruct (c a); cbn [List.length]; lia.
Qed.

(** X24: when every leave has one of the three statuses and one of the
    three types, as the CHECK constraints of the table require, the
    statistics add up: the total is the sum of the pending, approved and
    rejected counts, and also the sum of the counts by type. *)
Theorem statsOverview_adds_up (d : db) :
  (forall l, In l (leaves d) ->
     In (status l) ["PENDING"; "APPROVED"; "REJECTED"]
     /\ In (leave_type l) ["CL"; "RH"; "EL"]) ->
  let s := statsOverview d in
  total_leaves s = pending_leaves s + approved_leaves s + rejected_leaves s
  /\ total_leaves s = cl_leaves s + rh_leaves s + el_leaves s
  /\ total_leaves s = totalLeaves (systemHealth d).
Proof.
  intros Hcheck. cbv zeta. unfold statsOverview, systemHealth.
  cbn [total_leaves pending_leaves approved_leaves rejected_leaves
       cl_leaves rh_leaves el_leaves totalLeaves].
  split; [|split; [|reflexivity]].
  - induction (leaves d) as [|l ls IH]; [reflexivity|].
    rewrite !count_where_cons. cbn [List.length].
    rewrite Nat2Z.inj_succ, IH by (intros x Hx; apply Hcheck; now right).
    destruct (Hcheck l (or_introl eq_refl)) as [[<- | [<- | [<- | []]]] _];
      repeat match goal with
             | |- context [String.eqb ?a ?b] =>
                 let v := eval vm_compute in (String.eqb a b) in
                 change (String.eqb a b) with v
             end; lia.
  - induction (leaves d) as [|l ls IH]; [reflexivity|].
    rewrite !count_where_cons. cbn [List.length].
    rewrite Nat2Z.inj_succ, IH by (intros x Hx; apply Hcheck; now right).
    destruct (Hcheck l (or_introl eq_refl)) as [_ [<- | [<- | [<- | []]]]];
      repeat match goal with
             | |- context [String.eqb ?a ?b] =>
                 let v := eval vm_compute in (String.eqb a b) in
                 change (String.eqb a b) with v
             end; lia.
Qed.

Lemma statsOverview_adds_up_witness :
  statsOverview Sample.office = mkStats 2 1 1 0 1 0 1
  /\ total_leaves (statsOverview Sample.office)
     = pending_leaves (statsOverview Sample.office)
       + approved_leaves (statsOverview Sample.office)
       + rejected_leaves (statsOverview Sample.office).
Proof.
  split; [reflexivity|].
  apply (statsOverview_adds_up Sample.office).
  intros l [<- | [<- | []]]; simpl; auto.
Defined.

(** * Further properties of creating and deleting a leave *)

(** X25: for a request that passes the validation and resolves to an
    employee, with the type written so that the field name built from it
    is a balance column, the answer is InsufficientBalance exactly when the
    stored balance (NULL counting as 0) is below the day count that
    [calculateLeaveDays] gives on the server; the answer names that balance
    and that day count, and no table is touched. A request for exactly the
    remaining balance passes the check. *)
Theorem createLeave_insufficient_iff_below
  (tz : zone) (now : Z) (body : create_body) (file : option string) (d : db)
  (emp : employee) (rest : list employee) (s e : Z) (balance : option Z) :
  validateEmployeeId (body_employee_id body) = true ->
  validateLeaveType (body_leave_type body) = true ->
  body_start_date body = Day s ->
  body_end_date body = Day e ->
  validateDateRange tz now (Day s) (Day e) = true ->
  reason_missing (body_reason body) = false ->
  select_employees_lower d (trim (or_empty (body_employee_id body)))
  = emp :: rest ->
  balance_column (balanceField (or_empty (body_leave_type body))) emp
  = Some balance ->
  (createLeave tz now body file d
   = (inr (InsufficientBalance (or_empty (body_leave_type body))
             (of_column balance) (calculateLeaveDays tz s e)),
      uploadLeaveDoc file d)
   <-> column_number balance < calculateLeaveDays tz s e)
  /\ ((exists t a n, fst (createLeave tz now body file d)
                     = inr (InsufficientBalance t a n))
      -> column_number balance < calculateLeaveDays tz s e)
  /\ (column_number balance < calculateLeaveDays tz s e ->
      leaves (snd (createLeave tz now body file d)) = leaves d
      /\ employees (snd (createLeave tz now body file d)) = employees d
      /\ leaves_id_seq (snd (createLeave tz now body file d))
         = leaves_id_seq d).
Proof.
  intros Hid Htype Hs He Hrange Hreason Hemp Hcol.
  rewrite (createLeave_after_validation tz now body file d emp rest s e)
    by assumption.
  cbv zeta. unfold employee_field. rewrite Hcol.
  assert (Hlt : js_lt (of_column balance) (calculateLeaveDays tz s e)
                = (column_number balance <? calculateLeaveDays tz s e))
    by now destruct balance.
  rewrite Hlt.
  destruct (uploadLeaveDoc_tables file d) as (Hte & Htl & Hts).
  destruct (column_number balance <? calculateLeaveDays tz s e) eqn:E.
  - apply Z.ltb_lt in E. split; [now split|]. split; [now intros _|].
    intros _. cbn [snd]. now repeat split.
  - apply Z.ltb_ge in E. split; [|split].
    + split; [|lia]. intros H. exfalso.
      destruct (select_overlapping d _ s e); [|discriminate].
      destruct (insert_leave _ _ _ _ _ _ _ _) as [[row|] d']; discriminate.
    + intros (t & a & n & H). exfalso.
      destruct (select_overlapping d _ s e); [|discriminate].
      destruct (insert_leave _ _ _ _ _ _ _ _) as [[row|] d']; discriminate.
    + lia.
Qed.

Lemma createLeave_insufficient_iff_below_witness :
  createLeave Sample.new_york (Sample.noon 19780)
    (mkBody (Some "emp2") (Some "cl") (Day 19791) (Day 19794) (Some "errand"))
    None Sample.office
  = (inr (InsufficientBalance "cl" (JNum 0) 3), Sample.office).
Proof.
  apply (createLeave_insufficient_iff_below Sample.new_york (Sample.noon 19780)
           (mkBody (Some "emp2") (Some "cl") (Day 19791) (Day 19794)
              (Some "errand"))
           None Sample.office Sample.bob [] 19791 19794 (Some 0));
    reflexivity.
Defined.

(** X26: a leave that was just created can be deleted again: over leaves
    whose ids are unique and below the sequence, deleting the created row
    succeeds and leaves the leaves and the employees exactly as they were
    before the request. *)
Theorem createLeave_then_deleteLeave
  (tz : zone) (now : Z) (body : create_body) (file : option string)
  (d d' : db) (row : leave) :
  leaves_keyed d ->
  createLeave tz now body file d = (inl row, d') ->
  exists d'',
    deleteLeave (id row) d' = (inl tt, d'')
    /\ leaves d'' = leaves d
    /\ employees d'' = employees d
    /\ leaves_id_seq d'' = leaves_id_seq d + 1.
Proof.
  intros [Hnd Hlt] Hrun.
  apply createLeave_created_facts in Hrun
    as (s & e & _ & _ & _ & _ & Hst & _ & _ & Hid & ->).
  assert (Hnone : filter (fun x => id x =? id row) (leaves d) = []).
  { apply filter_nil_all. intros x Hx. rewrite Forall_forall in Hlt.
    specialize (Hlt x Hx). apply Z.eqb_neq. lia. }
  unfold deleteLeave, select_leave. cbn [leaves].
  rewrite filter_app, Hnone. cbn [filter app]. rewrite Z.eqb_refl, Hst.
  replace (String.eqb "PENDING" "PENDING") with true by reflexivity.
  cbn [negb]. eexists. split; [reflexivity|].
  assert (Hback : filter (fun x => negb (id x =? id row)) (leaves d ++ [row])
                  = leaves d).
  { rewrite filter_app. cbn [filter]. rewrite Z.eqb_refl. cbn [negb].
    rewrite app_nil_r. apply filter_all. intros x Hx.
    rewrite Forall_forall in Hlt. specialize (Hlt x Hx).
    apply negb_true_iff, Z.eqb_neq. lia. }
  unfold delete_leave, with_leaves, unlink.
  destruct (document_path row) as [path|];
    cbn [leaves employees leaves_id_seq uploads];
    [destruct (negb (String.eqb path "")
               && existsb (String.eqb path) (uploads (uploadLeaveDoc file d)))|];
    cbn [leaves employees leaves_id_seq uploads]; rewrite Hback;
    now repeat split.
Qed.

Lemma createLeave_then_deleteLeave_witness :
  exists row d' d'',
    createLeave utc (Sample.noon 50) Sample.blank_padded_request None
      Sample.office = (inl row, d')
    /\ deleteLeave (id row) d' = (inl tt, d'')
    /\ leaves d'' = leaves Sample.office.
Proof.
  destruct (createLeave utc (Sample.noon 50) Sample.blank_padded_request None
              Sample.office)
    as [[row|refused] d'] eqn:E; [|vm_compute in E; discriminate].
  destruct (createLeave_then_deleteLeave utc (Sample.noon 50)
              Sample.blank_padded_request None
              Sample.office d' row sample_office_keyed E)
    as (d'' & Hdel & Hleaves & _).
  exists row, d', d''. repeat split; assumption.
Defined.

(** * Approval followed by a sweep *)

(** X27: an approval deducts without looking at what is left, so it can
    leave a balance negative; over unique employee identifiers, one sweep
    after any status request leaves no employee with a negative
    balance. *)
Theorem sweep_after_status_request_clears_negatives
  (now leaveId : Z) (st approved_by : option string) (d : db) :
  NoDup (map employee_id (employees d)) ->
  forall x,
    In x (employees (checkDataIntegrity
                       (snd (updateLeaveStatus now leaveId st approved_by d)))) ->
    sql_lt (cl_balance x) 0 = false
    /\ sql_lt (rh_balance x) 0 = false
    /\ sql_lt (el_balance x) 0 = false.
Proof.
  intros Hnd x Hx.
  set (d1 := snd (updateLeaveStatus now leaveId st approved_by d)) in *.
  assert (Hnd1 : NoDup (map employee_id (employees d1))).
  { destruct (updateLeaveStatus_employees now leaveId st approved_by d)
      as [Hemp _]. cbv zeta in Hemp. fold d1 in Hemp.
    apply (f_equal (map (fun t => fst (fst t)))) in Hemp.
    rewrite !map_map in Hemp. cbn [fst] in Hemp.
    unfold employee_id in *. now rewrite Hemp. }
  destruct (checkDataIntegrity_result d1 Hnd1) as [Hneg _].
  unfold select_negative_balances in Hneg.
  pose proof (proj1 (filter_nil_all _ _) Hneg x Hx) as H.
  cbv beta in H. apply orb_false_iff in H as [H Hel].
  apply orb_false_iff in H as [Hcl Hrh]. now repeat split.
Qed.

Lemma sweep_after_status_request_clears_negatives_witness :
  map cl_balance
      (employees (snd (updateLeaveStatus 95 3 (Some "APPROVED") (Some "ADMIN1")
                         Sample.strained)))
  = [Some 10; Some (-2)]
  /\ forall x,
       In x (employees (checkDataIntegrity
                          (snd (updateLeaveStatus 95 3 (Some "APPROVED")
                                  (Some "ADMIN1") Sample.strained)))) ->
       sql_lt (cl_balance x) 0 = false.
Proof.
  split; [reflexivity|].
  intros x Hx.
  apply (sweep_after_status_request_clears_negatives 95 3 (Some "APPROVED")
           (Some "ADMIN1") Sample.strained); [|exact Hx].
  simpl. repeat constructor; simpl; intuition discriminate.
Defined.

(** * The day-count check as it behaves *)

(** X28: [validateLeaveDays] returns a value that callers read as true
    exactly when the day count is of type number and is not below 1, that
    is, an integer of at least 1 or NaN, whatever the leave type: within
    the cap of a known type (CL 30, RH 15, EL 60) the value is [true], and
    in every other accepted case, NaN included, it is the number 30. *)
Theorem validateLeaveDays_accepts_exactly (days : jsval) (leaveType : string) :
  (truthy (validateLeaveDays days leaveType) = true
   <-> (exists d, days = JNum d /\ 1 <= d) \/ days = JNaN)
  /\ match days with
     | JNum d =>
         validateLeaveDays days leaveType
         = if d <? 1 then JBool false
           else if js_le_val d (maxDays leaveType) then JBool true
           else JNum 30
     | JNaN => validateLeaveDays days leaveType = JNum 30
     | _ => validateLeaveDays days leaveType = JBool false
     end.
Proof.
  split.
  - split.
    + destruct days as [| |b|d|]; cbn [validateLeaveDays truthy];
        try discriminate; [|now right].
      destruct (d <? 1) eqn:E; [discriminate|]. intros _.
      apply Z.ltb_ge in E. left. now exists d.
    + intros [(d & -> & Hd) | ->]; [now apply validateLeaveDays_truthy|].
      reflexivity.
  - destruct days as [| |b|d|]; try reflexivity.
    cbn [validateLeaveDays]. destruct (d <? 1); [reflexivity|].
    unfold js_or. now destruct (js_le_val d (maxDays leaveType)).
Qed.
